(** * TouchDistanceTracker: a shallow embedding and its properties

    The tracker is one JavaScript class.  It records pointer positions,
    accumulates the distance travelled in millimetres, persists the running
    total and an event log in [localStorage], and notifies observers when it
    runs in "visualization" mode.

    JavaScript numbers are IEEE 754 binary64 values: they are modelled by
    Rocq's primitive [float], whose [+], [-], [*], [/] and [sqrt] are the
    IEEE operations.  [localStorage] is a finite map from strings to strings.
    Methods are computations in a state-and-exception monad; the state holds
    the object's fields, the store and the chronological trace of the
    effects a caller can observe (store accesses and observer callbacks). *)

From Stdlib Require Import Floats ZArith NArith DecimalString Ascii String.
From Stdlib Require DecimalN DecimalPos.
From stdpp Require Import gmap strings list.

Set Warnings "-inexact-float,-register-all".

(** ** JavaScript values and truthiness *)

Module JS.

(** [if (s)] on a string: every string but the empty one is truthy. *)
Definition truthy_string (s : string) : bool := negb (String.eqb s "").

(** [if (v)] on the result of [getItem]: [null] and [""] are falsy. *)
Definition truthy (v : option string) : bool :=
  match v with
  | Some s => truthy_string s
  | None => false
  end.

(** [if (v)] on a number: [0], [-0] and [NaN] are falsy. *)
Definition truthy_number (v : float) : bool :=
  negb (PrimFloat.eqb v 0 || PrimFloat.is_nan v).

(** [a || b] where [a] is an optional string. *)
Definition or_string (a : option string) (b : string) : string :=
  match a with
  | Some s => if truthy_string s then s else b
  | None => b
  end.

(** [a || b] where [a] is an optional number. *)
Definition or_number (a : option float) (b : float) : float :=
  match a with
  | Some v => if truthy_number v then v else b
  | None => b
  end.

(** [String(index)] for a non-negative integer below [10^21]: its decimal
    digits. *)
Definition String_of_N (index : N) : string :=
  NilZero.string_of_uint (N.to_uint index).

Fixpoint repeat_string (n : nat) (s : string) : string :=
  match n with
  | O => ""
  | S n' => s +:+ repeat_string n' s
  end.

(** [s.padStart(targetLength, padString)]: [s] itself when it is long
    enough, otherwise [s] preceded by [padString] repeated and truncated to
    the missing length. *)
Definition padStart (targetLength : nat) (padString : string) (s : string)
  : string :=
  let len := String.length s in
  if (targetLength <=? len)%nat then s
  else
    let fillLen := (targetLength - len)%nat in
    String.substring 0 fillLen (repeat_string fillLen padString) +:+ s.

(** A JSON value, as [JSON.parse] returns it. *)
Inductive JSON :=
| JNull
| JBool (b : bool)
| JNumber (v : float)
| JString (s : string)
| JArray (elements : list JSON)
| JObject (members : list (string * JSON)).

End JS.

(** ** The engine's built-ins

    The functions of the host engine that the class calls.  ECMA-262 leaves
    [Math.pow] implementation-approximated, and the text formats of numbers
    and of JSON are large: the results below hold for every engine, and the
    few facts about built-ins that a property needs are stated with it. *)

Class Runtime := {
  (** [Math.pow(base, exponent)] *)
  Math_pow : float -> float -> float;
  (** [parseFloat(string)]: never throws; [NaN] when no prefix is a number. *)
  parseFloat : string -> float;
  (** [number.toString()] *)
  Number_toString : float -> string;
  (** [JSON.parse(text)]: [None] stands for the [SyntaxError] it throws. *)
  JSON_parse : string -> option JS.JSON;
  (** [JSON.stringify(value)] *)
  JSON_stringify : JS.JSON -> string;
}.

(** ** An executable engine

    The built-ins as ECMA-262 specifies them, for evaluating the model on
    concrete inputs: numbers are read and printed with correct rounding and
    the shortest digits that read back, and JSON text is parsed by recursive
    descent. *)

Module ES.

(** *** Numbers and their decimal text *)

(** The binary64 value nearest to [digits * 10^exponent] (ties to even),
    with the given sign: the "Number value" of ECMA-262. *)
Definition of_decimal (negative : bool) (digits : N) (exponent : Z) : float :=
  match digits with
  | N0 => if negative then PrimFloat.neg_zero else PrimFloat.zero
  | Npos m =>
      let num :=
        if (0 <? exponent)%Z then (m * 10 ^ Z.to_pos exponent)%positive
        else m in
      let den :=
        if (exponent <? 0)%Z then (10 ^ Z.to_pos (- exponent))%positive
        else 1%positive in
      SF2Prim (SFdiv prec emax (S754_finite negative num 0)
                               (S754_finite false den 0))
  end.

Definition is_digit (c : ascii) : bool :=
  (48 <=? N_of_ascii c)%N && (N_of_ascii c <=? 57)%N.

Definition digit_value (c : ascii) : N := (N_of_ascii c - 48)%N.

(** Read a run of decimal digits onto [acc]: the value, how many digits
    were read, and the rest of the text. *)
Fixpoint digits (s : string) (acc : N) (count : nat) : N * nat * string :=
  match s with
  | String c s' =>
      if is_digit c then digits s' (acc * 10 + digit_value c)%N (S count)
      else (acc, count, s)
  | EmptyString => (acc, count, s)
  end.

(** [s] without the prefix [p], when it starts with it. *)
Fixpoint strip_prefix (p s : string) : option string :=
  match p, s with
  | EmptyString, _ => Some s
  | String a p', String b s' =>
      if Ascii.eqb a b then strip_prefix p' s' else None
  | String _ _, EmptyString => None
  end.

(** An optional sign: whether it is [-], and the rest. *)
Definition sign (s : string) : bool * string :=
  match s with
  | String "-" s' => (true, s')
  | String "+" s' => (false, s')
  | _ => (false, s)
  end.

(** An optional exponent part ([e], a sign if any, digits); without a
    digit after the [e] there is none. *)
Definition exponent_part (s : string) : Z * string :=
  match s with
  | String c s' =>
      if Ascii.eqb c "e" || Ascii.eqb c "E" then
        let '(negative, s'') := sign s' in
        let '(e, count, rest) := digits s'' 0%N 0%nat in
        match count with
        | O => (0%Z, s)
        | S _ => ((if negative then - Z.of_N e else Z.of_N e)%Z, rest)
        end
      else (0%Z, s)
  | EmptyString => (0%Z, s)
  end.

(** White space that [parseFloat] skips (the Latin-1 part of it). *)
Definition is_white_space (c : ascii) : bool :=
  match N_of_ascii c with
  | 9 | 10 | 11 | 12 | 13 | 32 | 160 => true
  | _ => false
  end%N.

Fixpoint trim_start (s : string) : string :=
  match s with
  | String c s' => if is_white_space c then trim_start s' else s
  | EmptyString => s
  end.

(** [parseFloat(string)]: the longest prefix of the trimmed text that is
    a decimal literal, or [NaN] when there is none. *)
Definition parseFloat (text : string) : float :=
  let '(negative, s) := sign (trim_start text) in
  match strip_prefix "Infinity" s with
  | Some _ => if negative then PrimFloat.neg_infinity else PrimFloat.infinity
  | None =>
      let '(whole, n1, s1) := digits s 0%N 0%nat in
      let '(mantissa, n2, s2) :=
        match s1 with
        | String "." s1' => digits s1' whole 0%nat
        | _ => (whole, 0%nat, s1)
        end in
      match (n1 + n2)%nat with
      | O => PrimFloat.nan
      | S _ =>
          let '(e, _) := exponent_part s2 in
          of_decimal negative mantissa (e - Z.of_nat n2)
      end
  end.

Definition pow10 (n : Z) : N := (10 ^ Z.to_N n)%N.

(** Is [num / den < 10^j]? *)
Definition lt_pow10 (num den : N) (j : Z) : bool :=
  if (0 <=? j)%Z then (num <? den * pow10 j)%N
  else (num * pow10 (- j) <? den)%N.

Definition decimal_length (n : N) : Z :=
  Z.of_nat (String.length (JS.String_of_N n)).

(** The [n] with [10^(n-1) <= num / den < 10^n]. *)
Definition magnitude (num den : N) : Z :=
  let j := (decimal_length num - decimal_length den)%Z in
  if lt_pow10 num den j then j else (j + 1)%Z.

(** The least number of digits [k], and the digits [s], such that
    [s * 10^(n-k)] reads back as [v]; of two candidates the nearer to
    [num / den], and the even one on a tie. *)
Fixpoint shortest (fuel : nat) (v : float) (num den : N) (n k : Z) : N * Z :=
  let e := (k - n)%Z in
  let scaled_num := if (0 <=? e)%Z then (num * pow10 e)%N else num in
  let scaled_den := if (0 <=? e)%Z then den else (den * pow10 (- e))%N in
  let q := (scaled_num / scaled_den)%N in
  let r := (scaled_num mod scaled_den)%N in
  let low := PrimFloat.eqb (of_decimal false q (n - k)) v in
  let high := PrimFloat.eqb (of_decimal false (q + 1) (n - k)) v in
  match fuel with
  | O => (q, k)
  | S fuel' =>
      match low, high with
      | true, true =>
          match (2 * r ?= scaled_den)%N with
          | Lt => (q, k)
          | Gt => ((q + 1)%N, k)
          | Eq => ((if N.even q then q else q + 1)%N, k)
          end
      | true, false => (q, k)
      | false, true => ((q + 1)%N, k)
      | false, false => shortest fuel' v num den n (k + 1)
      end
  end.

Definition zeros (n : Z) : string := JS.repeat_string (Z.to_nat n) "0".

(** The text of a finite positive number, from its digits [s] (there are
    [k] of them) and its magnitude [n]: Number::toString, steps 6 to 10. *)
Definition format (s : N) (k n : Z) : string :=
  let ds := JS.String_of_N s in
  let exponent (e : Z) :=
    "e" +:+ (if (0 <=? e)%Z then "+" else "-") +:+
    JS.String_of_N (Z.to_N (Z.abs e)) in
  if ((k <=? n) && (n <=? 21))%Z then ds +:+ zeros (n - k)
  else if ((0 <? n) && (n <=? 21))%Z then
    String.substring 0 (Z.to_nat n) ds +:+ "." +:+
    String.substring (Z.to_nat n) (Z.to_nat (k - n)) ds
  else if ((-6 <? n) && (n <=? 0))%Z then "0." +:+ zeros (- n) +:+ ds
  else if (k =? 1)%Z then ds +:+ exponent (n - 1)%Z
  else
    String.substring 0 1 ds +:+ "." +:+
    String.substring 1 (Z.to_nat (k - 1)) ds +:+ exponent (n - 1)%Z.

(** [number.toString()] *)
Definition Number_toString (v : float) : string :=
  match Prim2SF v with
  | S754_nan => "NaN"
  | S754_zero _ => "0"
  | S754_infinity negative => if negative then "-Infinity" else "Infinity"
  | S754_finite negative m e =>
      let num := if (0 <=? e)%Z then (Npos m * 2 ^ Z.to_N e)%N else Npos m in
      let den := if (0 <=? e)%Z then 1%N else (2 ^ Z.to_N (- e))%N in
      let n := magnitude num den in
      let '(s, k) := shortest 17 (PrimFloat.abs v) num den n 1 in
      let '(s, n) :=
        if (s =? pow10 k)%N then (pow10 (k - 1), (n + 1)%Z) else (s, n) in
      (if negative then "-" else "") +:+ format s k n
  end.

(** *** JSON text

    Strings are Latin-1: a [\u] escape above [00ff] is outside the model
    and is reported as unparsable.  The members of a parsed object are kept
    in the order of the text. *)

Definition quote : ascii := "034".
Definition backslash : ascii := "092".

Definition hex_digit (n : N) : ascii :=
  ascii_of_N (if (n <? 10)%N then 48 + n else 87 + n).

(** One character of a quoted string. *)
Definition quote_char (c : ascii) : string :=
  let escape (e : ascii) := String backslash (String e "") in
  match N_of_ascii c with
  | 8 => escape "b"%char
  | 9 => escape "t"%char
  | 10 => escape "n"%char
  | 12 => escape "f"%char
  | 13 => escape "r"%char
  | 34 => escape quote
  | 92 => escape backslash
  | code =>
      if code <? 32 then
        escape "u"%char +:+ "00" +:+
        String (hex_digit (code / 16)) (String (hex_digit (code mod 16)) "")
      else String c ""
  end%N.

Fixpoint quote_chars (s : string) : string :=
  match s with
  | String c s' => quote_char c +:+ quote_chars s'
  | EmptyString => ""
  end.

Definition quote_string (s : string) : string :=
  String quote (quote_chars s +:+ String quote "").

Definition join (parts : list string) : string :=
  match parts with
  | [] => ""
  | p :: ps => fold_left (fun acc q => acc +:+ "," +:+ q) ps p
  end.

(** [JSON.stringify(value)] *)
Fixpoint JSON_stringify (value : JS.JSON) : string :=
  match value with
  | JS.JNull => "null"
  | JS.JBool b => if b then "true" else "false"
  | JS.JNumber v =>
      if PrimFloat.is_nan v || PrimFloat.is_infinity v then "null"
      else Number_toString v
  | JS.JString s => quote_string s
  | JS.JArray elements =>
      "[" +:+ join (List.map JSON_stringify elements) +:+ "]"
  | JS.JObject members =>
      "{" +:+
      join (List.map (fun m => quote_string m.1 +:+ ":" +:+
                               JSON_stringify m.2) members) +:+
      "}"
  end.

Definition is_json_white_space (c : ascii) : bool :=
  match N_of_ascii c with
  | 9 | 10 | 13 | 32 => true
  | _ => false
  end%N.

Fixpoint skip (s : string) : string :=
  match s with
  | String c s' => if is_json_white_space c then skip s' else s
  | EmptyString => s
  end.

Definition hex_value (c : ascii) : option N :=
  let code := N_of_ascii c in
  if ((48 <=? code) && (code <=? 57))%N then Some (code - 48)%N
  else if ((97 <=? code) && (code <=? 102))%N then Some (code - 87)%N
  else if ((65 <=? code) && (code <=? 70))%N then Some (code - 55)%N
  else None.

(** The characters of a string literal after its opening quote. *)
Fixpoint string_body (s : string) (acc : string) : option (string * string) :=
  match s with
  | EmptyString => None
  | String c s' =>
      if Ascii.eqb c quote then Some (acc, s')
      else if Ascii.eqb c backslash then
        match s' with
        | String e s'' =>
            let plain (d : ascii) := string_body s'' (acc +:+ String d "") in
            match N_of_ascii e with
            | 34%N => plain quote
            | 92%N => plain backslash
            | 47%N => plain "/"%char
            | 98%N => plain "008"%char
            | 102%N => plain "012"%char
            | 110%N => plain "010"%char
            | 114%N => plain "013"%char
            | 116%N => plain "009"%char
            | 117%N =>
                match s'' with
                | String h1 (String h2 (String h3 (String h4 rest))) =>
                    match hex_value h1, hex_value h2,
                          hex_value h3, hex_value h4 with
                    | Some 0%N, Some 0%N, Some a, Some b =>
                        string_body rest
                          (acc +:+ String (ascii_of_N (16 * a + b)) "")
                    | _, _, _, _ => None
                    end
                | _ => None
                end
            | _ => None
            end
        | EmptyString => None
        end
      else if (N_of_ascii c <? 32)%N then None
      else string_body s' (acc +:+ String c "")
  end.

(** A JSON number: [-]? int frac? exp?, with no leading zero and a digit
    after the point.  An [e] that no digit follows is left in the rest,
    where no JSON text can continue with it. *)
Definition number (s : string) : option (float * string) :=
  let '(negative, s0) :=
    match s with
    | String "-" s' => (true, s')
    | _ => (false, s)
    end in
  let '(whole, n1, s1) := digits s0 0%N 0%nat in
  let leading_zero :=
    match s0 with
    | String "0" _ => (1 <? n1)%nat
    | _ => false
    end in
  match n1 with
  | O => None
  | S _ =>
      if leading_zero then None
      else
        let fraction :=
          match s1 with
          | String "." s1' =>
              let '(m, n2, s2) := digits s1' whole 0%nat in
              match n2 with
              | O => None
              | S _ => Some (m, n2, s2)
              end
          | _ => Some (whole, 0%nat, s1)
          end in
        match fraction with
        | None => None
        | Some (mantissa, n2, s2) =>
            let '(e, rest) := exponent_part s2 in
            Some (of_decimal negative mantissa (e - Z.of_nat n2), rest)
        end
  end.

(** A member added to an object: a repeated key keeps its place and
    takes the later value. *)
Fixpoint set_member (key : string) (value : JS.JSON)
    (members : list (string * JS.JSON)) : list (string * JS.JSON) :=
  match members with
  | [] => [(key, value)]
  | (k, v) :: rest =>
      if String.eqb k key then (k, value) :: rest
      else (k, v) :: set_member key value rest
  end.

(** The recursive-descent parser; each call takes one unit of fuel. *)
Fixpoint value (fuel : nat) (s : string) : option (JS.JSON * string) :=
  match fuel with
  | O => None
  | S fuel' =>
      match skip s with
      | String "[" s' =>
          match skip s' with
          | String "]" rest => Some (JS.JArray [], rest)
          | _ => elements fuel' s' []
          end
      | String "{" s' =>
          match skip s' with
          | String "}" rest => Some (JS.JObject [], rest)
          | _ => members fuel' s' []
          end
      | String c s' as s0 =>
          if Ascii.eqb c quote then
            match string_body s' "" with
            | Some (text, rest) => Some (JS.JString text, rest)
            | None => None
            end
          else
            match strip_prefix "null" s0, strip_prefix "true" s0,
                  strip_prefix "false" s0 with
            | Some rest, _, _ => Some (JS.JNull, rest)
            | _, Some rest, _ => Some (JS.JBool true, rest)
            | _, _, Some rest => Some (JS.JBool false, rest)
            | None, None, None =>
                match number s0 with
                | Some (v, rest) => Some (JS.JNumber v, rest)
                | None => None
                end
            end
      | EmptyString => None
      end
  end
with elements (fuel : nat) (s : string) (acc : list JS.JSON)
  : option (JS.JSON * string) :=
  match fuel with
  | O => None
  | S fuel' =>
      match value fuel' s with
      | Some (v, rest) =>
          match skip rest with
          | String "," rest' => elements fuel' rest' (acc ++ [v])
          | String "]" rest' => Some (JS.JArray (acc ++ [v]), rest')
          | _ => None
          end
      | None => None
      end
  end
with members (fuel : nat) (s : string) (acc : list (string * JS.JSON))
  : option (JS.JSON * string) :=
  match fuel with
  | O => None
  | S fuel' =>
      match skip s with
      | String c s' =>
          if Ascii.eqb c quote then
            match string_body s' "" with
            | Some (key, rest) =>
                match skip rest with
                | String ":" rest' =>
                    match value fuel' rest' with
                    | Some (v, rest'') =>
                        match skip rest'' with
                        | String "," rest3 =>
                            members fuel' rest3 (set_member key v acc)
                        | String "}" rest3 =>
                            Some (JS.JObject (set_member key v acc), rest3)
                        | _ => None
                        end
                    | None => None
                    end
                | _ => None
                end
            | None => None
            end
          else None
      | EmptyString => None
      end
  end.

(** [JSON.parse(text)]: one value, and nothing but white space after. *)
Definition JSON_parse (text : string) : option JS.JSON :=
  match value (2 * String.length text + 2) text with
  | Some (v, rest) =>
      match skip rest with
      | EmptyString => Some v
      | String _ _ => None
      end
  | None => None
  end.

(** [Math.pow(base, exponent)]: ECMA-262 asks for an approximation.  The
    class only squares; the product of a number with itself, rounded
    once, is the correctly rounded square. *)
Definition Math_pow (base exponent : float) : float :=
  if PrimFloat.eqb exponent 2 then (base * base)%float
  else if PrimFloat.eqb exponent 1 then base
  else if PrimFloat.eqb exponent 0 then 1%float
  else PrimFloat.nan.

End ES.

#[global] Instance es : Runtime := {|
  Math_pow := ES.Math_pow;
  parseFloat := ES.parseFloat;
  Number_toString := ES.Number_toString;
  JSON_parse := ES.JSON_parse;
  JSON_stringify := ES.JSON_stringify;
|}.

(** ** Data model (types.d.ts) *)

Module Types.

Inductive TouchMode := visualization | production.

Record StorageConfig := {
  storageKey : option string;
  touchLogKey : option string;
}.

Record Point := { x : float; y : float }.

Record Line := {
  x1 : float; y1 : float; x2 : float; y2 : float;
  distance : float;
}.

(** The three payloads an observer can be handed. *)
Inductive Notification :=
| PointsUpdated (ps : list Point)
| LinesUpdated (ls : list Line)
| TotalDistanceUpdated (total : float).

(** How a callback ends: it returns, or it throws. *)
Inductive Completion := normal | abrupt.

(** An observer: an object identity and three optional callbacks.  A
    callback is foreign code; the model keeps of it whether it throws.
    Callbacks that call back into the tracker are outside the model. *)
Record Observer := {
  oid : nat;
  onPointsUpdated : option (list Point -> Completion);
  onLinesUpdated : option (list Line -> Completion);
  onTotalDistanceUpdated : option (float -> Completion);
}.

End Types.
Export Types.

(** The constructor's argument; every field is optional. *)
Module Config.
Record t := {
  mode : option TouchMode;
  dpi : option float;
  storageConfig : option StorageConfig;
}.
Definition empty : t :=
  {| mode := None; dpi := None; storageConfig := None |}.
End Config.

(** The fields of a [TouchDistanceTracker] object. *)
Record TouchDistanceTracker := {
  mode : TouchMode;
  lastTouchPosition : option Point;
  dpi : float;
  totalDistance : float;
  points : list Point;
  lines : list Line;
  observers : list Observer;
  storageConfig : StorageConfig;
}.

(** The part of a pointer event that [handleTouch] reads. *)
Record PointerEvent := { clientX : float; clientY : float }.

(** ** Effects *)

Inductive Error := SyntaxError | TypeError | ObserverError.

(** What a caller can observe of a call, in the order it happens. *)
Inductive Effect :=
| GetItem (key : string)
| SetItem (key value : string)
| RemoveItem (key : string)
| Notify (observer : nat) (n : Notification).

(** The world outside the object: the store and the trace so far. *)
Record Env := {
  localStorage : gmap string string;
  trace : list Effect;
}.

(** The state a method runs in. *)
Record World := {
  this : TouchDistanceTracker;
  env : Env;
}.

(** A call returns a value, throws, or (a loop run with too little fuel)
    has not finished. *)
Inductive Outcome (A : Type) :=
| Return (a : A)
| Throw (e : Error)
| OutOfFuel.
Arguments Return {A} a.
Arguments Throw {A} e.
Arguments OutOfFuel {A}.

(** Computations over a state [S]; the state reached is kept when a call
    throws, as the assignments made before a JavaScript exception are. *)
Definition M (S A : Type) : Type := S -> Outcome A * S.

Definition ret {S A} (a : A) : M S A := fun s => (Return a, s).

Definition bind {S A B} (m : M S A) (k : A -> M S B) : M S B :=
  fun s =>
    match m s with
    | (Return a, s') => k a s'
    | (Throw e, s') => (Throw e, s')
    | (OutOfFuel, s') => (OutOfFuel, s')
    end.

Definition throw {S A} (e : Error) : M S A := fun s => (Throw e, s).

Definition out_of_fuel {S A} : M S A := fun s => (OutOfFuel, s).

Declare Scope js_scope.
Delimit Scope js_scope with js.
Notation "'let!' x ':=' m 'in' k" := (bind m (fun x => k))
  (at level 10, x pattern, m at level 100, k at level 200) : js_scope.
Notation "m ';;;' k" := (bind m (fun _ => k))
  (at level 100, k at level 200, right associativity) : js_scope.
Open Scope js_scope.

Definition emit (e : Effect) : M Env unit :=
  fun E => (Return tt,
            {| localStorage := localStorage E; trace := trace E ++ [e] |}).

(** [localStorage.getItem(key)] *)
Definition getItem (key : string) : M Env (option string) :=
  emit (GetItem key) ;;;
  fun E => (Return (localStorage E !! key), E).

(** [localStorage.setItem(key, value)]; the store is assumed never to
    refuse a write. *)
Definition setItem (key value : string) : M Env unit :=
  emit (SetItem key value) ;;;
  fun E => (Return tt,
            {| localStorage := <[key := value]> (localStorage E);
               trace := trace E |}).

(** [localStorage.removeItem(key)] *)
Definition removeItem (key : string) : M Env unit :=
  emit (RemoveItem key) ;;;
  fun E => (Return tt,
            {| localStorage := delete key (localStorage E);
               trace := trace E |}).

(** Run a computation on the outside world from inside a method. *)
Definition outside {A} (m : M Env A) : M World A :=
  fun w =>
    let (r, E) := m (env w) in
    (r, {| this := this w; env := E |}).

Definition get_this : M World TouchDistanceTracker :=
  fun w => (Return (this w), w).

Definition update_this (f : TouchDistanceTracker -> TouchDistanceTracker)
  : M World unit :=
  fun w => (Return tt, {| this := f (this w); env := env w |}).

(** ** The class *)

Section TouchDistanceTracker.

Context {engine : Runtime}.

(** The key the loop tries at [index]:
    [`totalDistance-${String(index).padStart(2, "0")}`]. *)
Definition defaultStorageKey (index : N) : string :=
  "totalDistance-" +:+ JS.padStart 2 "0" (JS.String_of_N index).

(** [index++] on a number: exact below [2^53], where adding one to a
    binary64 value stops changing it. *)
Definition increment (index : N) : N :=
  if (index <? 2 ^ 53)%N then (index + 1)%N else index.

(** The [while] loop of [generateDefaultStorageKey], one iteration per
    unit of fuel. *)
Fixpoint generateDefaultStorageKey_from (fuel : nat) (index : N)
  : M Env string :=
  match fuel with
  | O => out_of_fuel
  | S fuel' =>
      let! item := getItem (defaultStorageKey index) in
      if JS.truthy item
      then generateDefaultStorageKey_from fuel' (increment index)
      else ret (defaultStorageKey index)
  end.

Definition generateDefaultStorageKey (fuel : nat) : M Env string :=
  generateDefaultStorageKey_from fuel 1%N.

Definition addObserver (observer : Observer) : M World unit :=
  update_this (fun t =>
    {| mode := mode t; lastTouchPosition := lastTouchPosition t;
       dpi := dpi t; totalDistance := totalDistance t;
       points := points t; lines := lines t;
       observers := observers t ++ [observer];
       storageConfig := storageConfig t |}).

(** [obs !== observer] compares object identities. *)
Definition removeObserver (observer : Observer) : M World unit :=
  update_this (fun t =>
    {| mode := mode t; lastTouchPosition := lastTouchPosition t;
       dpi := dpi t; totalDistance := totalDistance t;
       points := points t; lines := lines t;
       observers :=
         List.filter (fun obs => negb (Nat.eqb (oid obs) (oid observer)))
                     (observers t);
       storageConfig := storageConfig t |}).

(** Call one callback with its argument: the call is observed, and an
    exception it throws propagates. *)
Definition invoke {A} (observer : Observer) (callback : A -> Completion)
    (argument : A) (n : Notification) : M World unit :=
  outside (emit (Notify (oid observer) n)) ;;;
  match callback argument with
  | normal => ret tt
  | abrupt => throw ObserverError
  end.

(** The body of the [forEach] callback of [notifyObservers]. *)
Definition notifyObserver (observer : Observer) : M World unit :=
  (let! t := get_this in
   match onPointsUpdated observer with
   | Some callback =>
       invoke observer callback (points t) (PointsUpdated (points t))
   | None => ret tt
   end) ;;;
  (let! t := get_this in
   match onLinesUpdated observer with
   | Some callback =>
       invoke observer callback (lines t) (LinesUpdated (lines t))
   | None => ret tt
   end) ;;;
  (let! t := get_this in
   match onTotalDistanceUpdated observer with
   | Some callback =>
       invoke observer callback (totalDistance t)
              (TotalDistanceUpdated (totalDistance t))
   | None => ret tt
   end).

Fixpoint forEach {A} (l : list A) (f : A -> M World unit) : M World unit :=
  match l with
  | [] => ret tt
  | a :: l' => f a ;;; forEach l' f
  end.

Definition notifyObservers : M World unit :=
  let! t := get_this in
  match mode t with
  | visualization => forEach (observers t) notifyObserver
  | production => ret tt
  end.

Definition saveTotalDistance : M World unit :=
  let! t := get_this in
  match storageKey (storageConfig t) with
  | Some key =>
      if JS.truthy_string key
      then outside (setItem key (Number_toString (totalDistance t)))
      else ret tt
  | None => ret tt
  end.

Definition set_totalDistance (v : float) (t : TouchDistanceTracker) :=
  {| mode := mode t; lastTouchPosition := lastTouchPosition t;
     dpi := dpi t; totalDistance := v;
     points := points t; lines := lines t;
     observers := observers t; storageConfig := storageConfig t |}.

Definition loadTotalDistance : M World unit :=
  let! t := get_this in
  match storageKey (storageConfig t) with
  | Some key =>
      if JS.truthy_string key
      then
        let! savedDistance := outside (getItem key) in
        match savedDistance with
        | Some saved =>
            if JS.truthy_string saved
            then update_this (set_totalDistance (parseFloat saved))
            else ret tt
        | None => ret tt
        end
      else ret tt
  | None => ret tt
  end.

Definition removeStorage : M World unit :=
  (let! t := get_this in
   match storageKey (storageConfig t) with
   | Some key =>
       if JS.truthy_string key then outside (removeItem key) else ret tt
   | None => ret tt
   end) ;;;
  (let! t := get_this in
   match touchLogKey (storageConfig t) with
   | Some key =>
       if JS.truthy_string key then outside (removeItem key) else ret tt
   | None => ret tt
   end).

Definition calculateDistance (x1 y1 x2 y2 : float) : float :=
  PrimFloat.sqrt (Math_pow (x2 - x1) 2 + Math_pow (y2 - y1) 2).

Definition convertToMM (t : TouchDistanceTracker) (distanceInPixels : float)
  : float :=
  let mmPerPixel := (25.4 / dpi t)%float in
  (distanceInPixels * mmPerPixel)%float.

(** The object literal [{ x, y, time_millis }]. *)
Definition touchData (x y time_millis : float) : JS.JSON :=
  JS.JObject [("x", JS.JNumber x); ("y", JS.JNumber y);
              ("time_millis", JS.JNumber time_millis)].

(** [log.push(touchData)]: only an array has a [push] method. *)
Definition push (log : JS.JSON) (entry : JS.JSON) : M World JS.JSON :=
  match log with
  | JS.JArray elements => ret (JS.JArray (elements ++ [entry]))
  | _ => throw TypeError
  end.

(** [existingLog ? JSON.parse(existingLog) : []] *)
Definition parse_or_empty (item : option string) : M World JS.JSON :=
  match item with
  | Some text =>
      if JS.truthy_string text
      then match JSON_parse text with
           | Some value => ret value
           | None => throw SyntaxError
           end
      else ret (JS.JArray [])
  | None => ret (JS.JArray [])
  end.

Definition saveTouchLog (touchData : JS.JSON) : M World unit :=
  let! t := get_this in
  match touchLogKey (storageConfig t) with
  | Some key =>
      if JS.truthy_string key
      then
        let! existingLog := outside (getItem key) in
        let! log := parse_or_empty existingLog in
        let! log := push log touchData in
        outside (setItem key (JSON_stringify log))
      else ret tt
  | None => ret tt
  end.

(** [handleTouch(event)]; [now] is the value [Date.now()] returns. *)
Definition handleTouch (now : float) (event : PointerEvent) : M World unit :=
  let x := clientX event in
  let y := clientY event in
  let time_millis := now in
  let newPoint := {| x := x; y := y |} in
  saveTouchLog (touchData x y time_millis) ;;;
  (let! t := get_this in
   match lastTouchPosition t with
   | Some last =>
       let distanceInPixels :=
         calculateDistance (Types.x last) (Types.y last) x y in
       let distanceInMM := convertToMM t distanceInPixels in
       let newLine :=
         {| x1 := Types.x last; y1 := Types.y last;
            x2 := x; y2 := y; distance := distanceInMM |} in
       update_this (fun t =>
         {| mode := mode t; lastTouchPosition := lastTouchPosition t;
            dpi := dpi t;
            totalDistance := (totalDistance t + distanceInMM)%float;
            points := points t; lines := lines t ++ [newLine];
            observers := observers t;
            storageConfig := storageConfig t |}) ;;;
       saveTotalDistance
   | None => ret tt
   end) ;;;
  update_this (fun t =>
    {| mode := mode t; lastTouchPosition := Some newPoint;
       dpi := dpi t; totalDistance := totalDistance t;
       points := points t ++ [newPoint]; lines := lines t;
       observers := observers t; storageConfig := storageConfig t |}) ;;;
  notifyObservers.

Definition reset : M World unit :=
  update_this (fun t =>
    {| mode := mode t; lastTouchPosition := None;
       dpi := dpi t; totalDistance := 0;
       points := []; lines := [];
       observers := observers t; storageConfig := storageConfig t |}) ;;;
  saveTotalDistance ;;;
  (let! t := get_this in
   match touchLogKey (storageConfig t) with
   | Some key =>
       if JS.truthy_string key then outside (removeItem key) else ret tt
   | None => ret tt
   end) ;;;
  notifyObservers.

Definition getTotalDistance : M World float :=
  let! t := get_this in ret (totalDistance t).

Definition getPoints : M World (list Point) :=
  let! t := get_this in ret (points t).

Definition getLines : M World (list Line) :=
  let! t := get_this in ret (lines t).

Definition getTouchLog : M World JS.JSON :=
  let! t := get_this in
  match touchLogKey (storageConfig t) with
  | Some key =>
      if JS.truthy_string key
      then
        let! log := outside (getItem key) in
        parse_or_empty log
      else ret (JS.JArray [])
  | None => ret (JS.JArray [])
  end.

(** [new TouchDistanceTracker(config)]: the field initialisers, then the
    constructor's body.  The computation runs on the outside world and
    returns the new object. *)
Definition constructor (fuel : nat) (config : Config.t)
  : M Env TouchDistanceTracker :=
  let! defaultStorageKey := generateDefaultStorageKey fuel in
  let given := Config.storageConfig config in
  let object :=
    {| mode := default production (Config.mode config);
       lastTouchPosition := None;
       dpi := JS.or_number (Config.dpi config) 96;
       totalDistance := 0;
       points := [];
       lines := [];
       observers := [];
       storageConfig :=
         {| storageKey :=
              Some (JS.or_string (given ≫= storageKey) defaultStorageKey);
            touchLogKey :=
              Some (JS.or_string (given ≫= touchLogKey)
                                 (defaultStorageKey +:+ "-touch-log")) |} |}
  in
  fun E =>
    let (r, w) := loadTotalDistance {| this := object; env := E |} in
    (match r with
     | Return _ => Return (this w)
     | Throw e => Throw e
     | OutOfFuel => OutOfFuel
     end, env w).

End TouchDistanceTracker.

(** ** Calls, and the notions the properties speak of *)

(** The public methods that change the object or the store. *)
Inductive Call :=
| HandleTouch (now : float) (event : PointerEvent)
| Reset
| AddObserver (observer : Observer)
| RemoveObserver (observer : Observer)
| RemoveStorage.

Section Specification.

Context {engine : Runtime}.

Definition call (c : Call) : M World unit :=
  match c with
  | HandleTouch now event => handleTouch now event
  | Reset => reset
  | AddObserver observer => addObserver observer
  | RemoveObserver observer => removeObserver observer
  | RemoveStorage => removeStorage
  end.

(** The caller makes the calls one after the other; a call that throws
    leaves the state it had reached, and the next call starts from it. *)
Fixpoint run (cs : list Call) (w : World) : World :=
  match cs with
  | [] => w
  | c :: cs' => run cs' (call c w).2
  end.

(** The states a tracker can be in: it was constructed, its methods were
    called, and the page may have changed the store in between. *)
Inductive reachable : World -> Prop :=
| reachable_new fuel config E t E' :
    constructor fuel config E = (Return t, E') ->
    reachable {| this := t; env := E' |}
| reachable_call c w :
    reachable w -> reachable (call c w).2
| reachable_outside w E :
    reachable w -> reachable {| this := this w; env := E |}.

(** A fresh tracker: the fields as the initialisers leave them, no total
    restored from the store. *)
Definition fresh (t : TouchDistanceTracker) : Prop :=
  lastTouchPosition t = None /\ totalDistance t = 0%float /\
  points t = [] /\ lines t = [].

(** [sum(line.distance for line in lines)], added up in order from 0. *)
Definition sum_distances (ls : list Line) : float :=
  fold_left (fun acc l => (acc + distance l)%float) ls 0%float.

(** The invariant of the data model. *)
Definition consistent (t : TouchDistanceTracker) : Prop :=
  Z.of_nat (length (lines t)) = Z.max (Z.of_nat (length (points t)) - 1) 0 /\
  totalDistance t = sum_distances (lines t).

(** The fields after a [handleTouch] that got past [saveTouchLog]. *)
Definition touched (event : PointerEvent) (t : TouchDistanceTracker)
  : TouchDistanceTracker :=
  let newPoint := {| x := clientX event; y := clientY event |} in
  match lastTouchPosition t with
  | Some last =>
      let d :=
        convertToMM t
          (calculateDistance (Types.x last) (Types.y last)
                             (clientX event) (clientY event)) in
      {| mode := mode t; lastTouchPosition := Some newPoint; dpi := dpi t;
         totalDistance := (totalDistance t + d)%float;
         points := points t ++ [newPoint];
         lines := lines t ++
                  [{| x1 := Types.x last; y1 := Types.y last;
                      x2 := clientX event; y2 := clientY event;
                      distance := d |}];
         observers := observers t; storageConfig := storageConfig t |}
  | None =>
      {| mode := mode t; lastTouchPosition := Some newPoint; dpi := dpi t;
         totalDistance := totalDistance t;
         points := points t ++ [newPoint]; lines := lines t;
         observers := observers t; storageConfig := storageConfig t |}
  end.

(** The fields after [reset]. *)
Definition cleared (t : TouchDistanceTracker) : TouchDistanceTracker :=
  {| mode := mode t; lastTouchPosition := None; dpi := dpi t;
     totalDistance := 0; points := []; lines := [];
     observers := observers t; storageConfig := storageConfig t |}.

(** The two keys of a tracker ([""] stands for a missing one). *)
Definition totalKey (t : TouchDistanceTracker) : string :=
  default "" (storageKey (storageConfig t)).

Definition logKey (t : TouchDistanceTracker) : string :=
  default "" (touchLogKey (storageConfig t)).

(** Both keys of a tracker are set, to strings that are not empty. *)
Definition keyed (t : TouchDistanceTracker) : Prop :=
  exists key lkey,
    storageConfig t = {| storageKey := Some key; touchLogKey := Some lkey |}
    /\ JS.truthy_string key = true /\ JS.truthy_string lkey = true.

(** A stored log that [saveTouchLog] can extend: none, an empty text, or
    the text of an array. *)
Definition readable (item : option string) : bool :=
  match item with
  | Some text =>
      if JS.truthy_string text
      then match JSON_parse text with
           | Some (JS.JArray _) => true
           | _ => false
           end
      else true
  | None => true
  end.

Definition log_readable (w : World) : bool :=
  match touchLogKey (storageConfig (this w)) with
  | Some key =>
      if JS.truthy_string key then readable (localStorage (env w) !! key)
      else true
  | None => true
  end.

(** A callback that is absent, or returns when handed [a]. *)
Definition returns {A} (callback : option (A -> Completion)) (a : A)
  : bool :=
  match callback with
  | Some f => match f a with normal => true | abrupt => false end
  | None => true
  end.


(** What one observer is to be told: each callback it has, once, in the
    order points, lines, total. *)
Definition callbacks_of (t : TouchDistanceTracker) (o : Observer)
  : list Effect :=
  match onPointsUpdated o with
  | Some _ => [Notify (oid o) (PointsUpdated (points t))]
  | None => []
  end ++
  match onLinesUpdated o with
  | Some _ => [Notify (oid o) (LinesUpdated (lines t))]
  | None => []
  end ++
  match onTotalDistanceUpdated o with
  | Some _ => [Notify (oid o) (TotalDistanceUpdated (totalDistance t))]
  | None => []
  end.

(** What all observers are to be told, in registration order. *)
Definition notifications (t : TouchDistanceTracker) : list Effect :=
  flat_map (callbacks_of t) (observers t).

Definition is_notify (e : Effect) : bool :=
  match e with
  | Notify _ _ => true
  | _ => false
  end.

(** The callback invocations of a trace, in order. *)
Definition notified (effects : list Effect) : list Effect :=
  List.filter is_notify effects.

(** The entries of the store whose value is not empty. *)
Definition live (store : gmap string string) : gmap string string :=
  filter (fun kv => JS.truthy_string kv.2 = true) store.

(** The first index whose key holds nothing, or the empty string. *)
Definition first_unused (store : gmap string string) (i : N) : Prop :=
  (1 <= i)%N /\
  (forall j, (1 <= j < i)%N ->
             JS.truthy (store !! defaultStorageKey j) = true) /\
  JS.truthy (store !! defaultStorageKey i) = false.

(** The reads of the keys numbered [1] to [i], in order. *)
Definition probes (i : N) : list Effect :=
  (fun k => GetItem (defaultStorageKey (N.of_nat k))) <$>
  seq 1 (N.to_nat i).

(** The number of tries that is enough on a store: one more than it has
    entries with a value. *)
Definition enough (store : gmap string string) : nat :=
  S (size (live store)).

(** The storage key the configuration asks for, if any. *)
Definition explicit_storageKey (config : Config.t) : option string :=
  Config.storageConfig config ≫= storageKey.

Definition explicit_touchLogKey (config : Config.t) : option string :=
  Config.storageConfig config ≫= touchLogKey.

(** The object the constructor returns when the first unused index is
    [i]: the defaults, the keys, and the total found under the key. *)
Definition constructed (config : Config.t) (store : gmap string string)
    (i : N) : TouchDistanceTracker :=
  let key := JS.or_string (explicit_storageKey config)
                          (defaultStorageKey i) in
  {| mode := default production (Config.mode config);
     lastTouchPosition := None;
     dpi := JS.or_number (Config.dpi config) 96;
     totalDistance :=
       match store !! key with
       | Some saved =>
           if JS.truthy_string saved then parseFloat saved else 0%float
       | None => 0%float
       end;
     points := [];
     lines := [];
     observers := [];
     storageConfig :=
       {| storageKey := Some key;
          touchLogKey :=
            Some (JS.or_string (explicit_touchLogKey config)
                               (defaultStorageKey i +:+ "-touch-log")) |} |}.

(** [v] is [target] to within [tolerance]. *)
Definition approximately (v target tolerance : float) : bool :=
  PrimFloat.leb (PrimFloat.abs (v - target)) tolerance.

(** Is the effect a callback of the observer [o]? *)
Definition addressed (o : Observer) (e : Effect) : bool :=
  match e with
  | Notify id _ => Nat.eqb id (oid o)
  | _ => false
  end.

(** *** Notions the proofs use *)

(** The store and the callbacks heard so far, of a state. *)
Definition store (w : World) : gmap string string := localStorage (env w).

Definition heard (w : World) : list Effect := notified (trace (env w)).

(** A computation that leaves an aspect [f] of the state as it was. *)
Definition preserves {A B} (f : World -> B) (m : M World A) : Prop :=
  forall w, f (m w).2 = f w.

(** The invariant in inductive form: the last position is recorded
    exactly when a point is, and from then on there is one line fewer
    than points. *)
Definition linked (t : TouchDistanceTracker) : Prop :=
  match lastTouchPosition t with
  | None => points t = [] /\ lines t = []
  | Some _ => length (points t) = S (length (lines t))
  end /\
  totalDistance t = sum_distances (lines t).

(** The number a padded index reads as. *)
Definition number_of (s : string) : option N :=
  N.of_uint <$> NilEmpty.uint_of_string s.

(** The reads of [count] keys from [index] on. *)
Definition reads (index : N) (count : nat) : list Effect :=
  (fun k => GetItem (defaultStorageKey (index + N.of_nat k))) <$>
  seq 0 count.

(** *** More notions: the shape of the recorded data *)

(** The line [handleTouch] draws from [p] to [q] on the tracker [t]. *)
Definition segment (t : TouchDistanceTracker) (p q : Point) : Line :=
  {| x1 := Types.x p; y1 := Types.y p; x2 := Types.x q; y2 := Types.y q;
     distance :=
       convertToMM t
         (calculateDistance (Types.x p) (Types.y p) (Types.x q) (Types.y q))
  |}.

(** The lines between consecutive points. *)
Fixpoint segments (t : TouchDistanceTracker) (ps : list Point) : list Line :=
  match ps with
  | p :: (q :: _) as rest => segment t p q :: segments t rest
  | _ => []
  end.

(** The stored log as the array [saveTouchLog] extends, when it is one. *)
Definition stored_log (item : option string) : option (list JS.JSON) :=
  match item with
  | Some text =>
      if JS.truthy_string text
      then match JSON_parse text with
           | Some (JS.JArray elements) => Some elements
           | _ => None
           end
      else Some []
  | None => Some []
  end.

(** No callback of the observer [o] throws on the fields of [t]. *)
Definition answers (t : TouchDistanceTracker) (o : Observer) : bool :=
  returns (onPointsUpdated o) (points t) &&
  returns (onLinesUpdated o) (lines t) &&
  returns (onTotalDistanceUpdated o) (totalDistance t).

Definition is_read (e : Effect) : bool :=
  match e with
  | GetItem _ => true
  | _ => false
  end.

Definition is_removeStorage (c : Call) : bool :=
  match c with
  | RemoveStorage => true
  | _ => false
  end.

(** The fields of the object after a call, whatever the call does to the
    store: [handleTouch] changes them only when the stored log can be
    read. *)
Definition fields_after (c : Call) (w : World) : TouchDistanceTracker :=
  match c with
  | HandleTouch _ event =>
      if log_readable w then touched event (this w) else this w
  | Reset => cleared (this w)
  | AddObserver o => this (addObserver o w).2
  | RemoveObserver o => this (removeObserver o w).2
  | RemoveStorage => this w
  end.

(** The points and lines belong together. *)
Definition traced (t : TouchDistanceTracker) : Prop :=
  lastTouchPosition t = last (points t) /\
  lines t = segments t (points t).

(** The stored total is the total, once there is a line; before the
    first point there is none. *)
Definition synced (w : World) : Prop :=
  (lastTouchPosition (this w) = None -> lines (this w) = []) /\
  (lines (this w) <> [] ->
   localStorage (env w) !! totalKey (this w) =
   Some (Number_toString (totalDistance (this w)))).

(** [v < 0] on a number. *)
Definition negative (v : float) : bool := (v <? 0)%float.

(** A binary64 datum below zero: not NaN, not a zero. *)
Definition signed (s : spec_float) : bool :=
  match s with
  | S754_finite true _ _ | S754_infinity true => true
  | _ => false
  end.

(** No distance of the tracker is below zero. *)
Definition measured (t : TouchDistanceTracker) : Prop :=
  negative (totalDistance t) = false /\
  Forall (fun l => negative (distance l) = false) (lines t).

End Specification.

(** ** Concrete inputs, for evaluating the model *)

Module Example.

(** An observer with all three callbacks, as in the test suite. *)
Definition watcher : Observer :=
  {| oid := 1;
     onPointsUpdated := Some (fun _ => normal);
     onLinesUpdated := Some (fun _ => normal);
     onTotalDistanceUpdated := Some (fun _ => normal) |}.

(** An observer that only follows the total. *)
Definition meter : Observer :=
  {| oid := 2;
     onPointsUpdated := None;
     onLinesUpdated := None;
     onTotalDistanceUpdated := Some (fun _ => normal) |}.

(** The configuration of the test suite. *)
Definition config : Config.t :=
  {| Config.mode := Some visualization;
     Config.dpi := Some 96%float;
     Config.storageConfig := None |}.

Definition empty : Env := {| localStorage := ∅; trace := [] |}.

(** The tracker [new TouchDistanceTracker(config)] makes on an empty
    store. *)
Definition tracker : TouchDistanceTracker :=
  {| mode := visualization; lastTouchPosition := None; dpi := 96;
     totalDistance := 0; points := []; lines := []; observers := [];
     storageConfig :=
       {| storageKey := Some "totalDistance-01";
          touchLogKey := Some "totalDistance-01-touch-log" |} |}.

Definition start : World :=
  {| this := tracker;
     env := {| localStorage := ∅;
               trace := [GetItem "totalDistance-01";
                         GetItem "totalDistance-01"] |} |}.

Definition down : PointerEvent := {| clientX := 0; clientY := 0 |}.
Definition move : PointerEvent := {| clientX := 100; clientY := 100 |}.

(** Two touches, as in the test suite, with the clock readings taken. *)
Definition stroke : list Call :=
  [HandleTouch 1700000000000 down; HandleTouch 1700000000016 move].

(** The tracker with both observers registered, after the first touch
    and after the whole stroke. *)
Definition watched : World :=
  run [AddObserver watcher; AddObserver meter;
       HandleTouch 1700000000000 down] start.

Definition worked : World :=
  run ([AddObserver watcher; AddObserver meter] ++ stroke) start.

(** A store that a first tracker has used. *)
Definition used : Env :=
  {| localStorage :=
       {["totalDistance-01" := "37.41773383778814";
         "totalDistance-01-touch-log" := "[]"]};
     trace := [] |}.

(** A store whose entries are no number and no JSON text, and a
    configuration that points at them. *)
Definition corrupt : Env :=
  {| localStorage := {["distance" := "abc"; "log" := "abc"]};
     trace := [] |}.

Definition named : Config.t :=
  {| Config.mode := None;
     Config.dpi := None;
     Config.storageConfig :=
       Some {| storageKey := Some "distance"; touchLogKey := Some "log" |}
  |}.

(** A configuration that names the storage key of the first tracker. *)
Definition again : Config.t :=
  {| Config.mode := None;
     Config.dpi := None;
     Config.storageConfig :=
       Some {| storageKey := Some "totalDistance-01";
               touchLogKey := None |} |}.

(** The new tracker after another page has overwritten its log entry
    with text that is no JSON. *)
Definition spoiled : World :=
  {| this := tracker;
     env := {| localStorage := {["totalDistance-01-touch-log" := "abc"]};
               trace := [] |} |}.

(** An observer whose lines callback throws. *)
Definition faulty : Observer :=
  {| oid := 3;
     onPointsUpdated := Some (fun _ => normal);
     onLinesUpdated := Some (fun _ => abrupt);
     onTotalDistanceUpdated := Some (fun _ => normal) |}.

(** The new tracker with the faulty observer registered between the two
    others. *)
Definition crowded : World :=
  run [AddObserver watcher; AddObserver faulty; AddObserver meter] start.
(** A configuration that names nothing, and the tracker it makes on an
    empty store. *)
Definition plain : Config.t :=
  {| Config.mode := None; Config.dpi := None; Config.storageConfig := None |}.

Definition idle : TouchDistanceTracker :=
  {| mode := production; lastTouchPosition := None; dpi := 96;
     totalDistance := 0; points := []; lines := []; observers := [];
     storageConfig :=
       {| storageKey := Some "totalDistance-01";
          touchLogKey := Some "totalDistance-01-touch-log" |} |}.

End Example.

(** * Properties *)

Section Proofs.

Context {engine : Runtime}.

(** *** Frame lemmas: what a computation leaves alone *)

Lemma preserves_ret {A B} (f : World -> B) (a : A) : preserves f (ret a).
Proof. intros w. reflexivity. Qed.

Lemma preserves_throw {A B} (f : World -> B) (e : Error) :
  preserves f (@throw World A e).
Proof. intros w. reflexivity. Qed.

Lemma preserves_get {B} (f : World -> B) : preserves f get_this.
Proof. intros w. reflexivity. Qed.

Lemma preserves_bind {A B C} (f : World -> C)
    (m : M World A) (k : A -> M World B) :
  preserves f m -> (forall a, preserves f (k a)) -> preserves f (bind m k).
Proof.
  intros Hm Hk w. unfold bind. specialize (Hm w).
  destruct (m w) as [[a|e|] w']; simpl in *; try assumption.
  rewrite Hk. assumption.
Qed.

Lemma preserves_this_outside {A} (m : M Env A) : preserves this (outside m).
Proof. intros w. unfold outside. destruct (m (env w)). reflexivity. Qed.

Lemma preserves_store_update f : preserves store (update_this f).
Proof. intros w. reflexivity. Qed.

Lemma preserves_heard_update f : preserves heard (update_this f).
Proof. intros w. reflexivity. Qed.

Lemma preserves_store_emit e : preserves store (outside (emit e)).
Proof. intros w. reflexivity. Qed.

Lemma preserves_store_getItem key : preserves store (outside (getItem key)).
Proof. intros w. reflexivity. Qed.

Lemma notified_snoc effects e :
  notified (effects ++ [e]) =
  notified effects ++ (if is_notify e then [e] else []).
Proof. unfold notified. rewrite List.filter_app. reflexivity. Qed.

Lemma preserves_heard_getItem key : preserves heard (outside (getItem key)).
Proof.
  intros w. unfold heard. simpl. rewrite notified_snoc. apply app_nil_r.
Qed.

Lemma preserves_heard_setItem key value :
  preserves heard (outside (setItem key value)).
Proof.
  intros w. unfold heard. simpl. rewrite notified_snoc. apply app_nil_r.
Qed.

Lemma preserves_heard_removeItem key :
  preserves heard (outside (removeItem key)).
Proof.
  intros w. unfold heard. simpl. rewrite notified_snoc. apply app_nil_r.
Qed.

Create HintDb frame discriminated.
Hint Resolve preserves_ret preserves_throw preserves_get
  preserves_this_outside preserves_store_update preserves_heard_update
  preserves_store_emit preserves_store_getItem preserves_heard_getItem
  preserves_heard_setItem preserves_heard_removeItem : frame.

Ltac frame :=
  repeat first
    [ progress intros
    | apply preserves_bind
    | match goal with
      | |- preserves _ (match ?v with _ => _ end) => destruct v
      | |- preserves _ (if ?b then _ else _) => destruct b
      end
    | solve [auto with frame] ].

Lemma invoke_this {A} o (cb : A -> Completion) a n :
  preserves this (invoke o cb a n).
Proof. unfold invoke. frame. Qed.

Lemma invoke_store {A} o (cb : A -> Completion) a n :
  preserves store (invoke o cb a n).
Proof. unfold invoke. frame. Qed.
Hint Resolve invoke_this invoke_store : frame.

Lemma notifyObserver_this o : preserves this (notifyObserver o).
Proof. unfold notifyObserver. frame. Qed.

Lemma notifyObserver_store o : preserves store (notifyObserver o).
Proof. unfold notifyObserver. frame. Qed.
Hint Resolve notifyObserver_this notifyObserver_store : frame.

Lemma preserves_forEach {A B} (g : World -> B)
    (l : list A) (f : A -> M World unit) :
  (forall a, preserves g (f a)) -> preserves g (forEach l f).
Proof. intros Hf. induction l; simpl; frame. Qed.

Lemma notifyObservers_this : preserves this notifyObservers.
Proof.
  unfold notifyObservers. frame. apply preserves_forEach. frame.
Qed.

Lemma notifyObservers_store : preserves store notifyObservers.
Proof.
  unfold notifyObservers. frame. apply preserves_forEach. frame.
Qed.
Hint Resolve notifyObservers_this notifyObservers_store : frame.

Lemma saveTotalDistance_this : preserves this saveTotalDistance.
Proof. unfold saveTotalDistance. frame. Qed.

Lemma saveTotalDistance_heard : preserves heard saveTotalDistance.
Proof. unfold saveTotalDistance. frame. Qed.

Lemma parse_or_empty_frame {B} (f : World -> B) item :
  preserves f (parse_or_empty item).
Proof. unfold parse_or_empty. frame. Qed.

Lemma push_frame {B} (f : World -> B) l e : preserves f (push l e).
Proof. unfold push. frame. Qed.
Hint Resolve saveTotalDistance_this saveTotalDistance_heard
  parse_or_empty_frame push_frame : frame.

Lemma saveTouchLog_this d : preserves this (saveTouchLog d).
Proof. unfold saveTouchLog. frame. Qed.

Lemma saveTouchLog_heard d : preserves heard (saveTouchLog d).
Proof. unfold saveTouchLog. frame. Qed.

Lemma removeStorage_this : preserves this removeStorage.
Proof. unfold removeStorage. frame. Qed.

Lemma loadTotalDistance_config :
  preserves (fun w => storageConfig (this w)) loadTotalDistance.
Proof.
  unfold loadTotalDistance. frame; intros w; reflexivity.
Qed.

(** *** What the two mutating methods do to the fields *)

(** [saveTotalDistance] always returns: the store never refuses. *)
Lemma saveTotalDistance_run w :
  exists E, saveTotalDistance w = (Return tt, {| this := this w; env := E |}).
Proof.
  destruct w as [t E]. unfold saveTotalDistance, bind, get_this. simpl.
  destruct (storageKey (storageConfig t)) as [key|]; [|eexists; reflexivity].
  destruct (JS.truthy_string key); eexists; reflexivity.
Qed.

Lemma handleTouch_this now event w :
  this (handleTouch now event w).2 =
  match (saveTouchLog
           (touchData (clientX event) (clientY event) now) w).1 with
  | Return _ => touched event (this w)
  | _ => this w
  end.
Proof.
  unfold handleTouch.
  pose proof (saveTouchLog_this
                (touchData (clientX event) (clientY event) now) w) as Hlog.
  unfold bind at 1.
  destruct (saveTouchLog _ w) as [[[]|e|] w1]; simpl in *; try assumption.
  unfold touched. rewrite <- Hlog. clear Hlog.
  unfold bind at 1. unfold bind at 1. unfold get_this at 1.
  destruct (lastTouchPosition (this w1)) as [last|] eqn:Hlast.
  - unfold bind at 1. unfold update_this at 1.
    match goal with
    | |- context [saveTotalDistance ?w'] =>
        destruct (saveTotalDistance_run w') as [E' ->]
    end.
    unfold bind, update_this. rewrite notifyObservers_this.
    reflexivity.
  - unfold ret at 1. unfold bind, update_this.
    rewrite notifyObservers_this. reflexivity.
Qed.

Lemma reset_this w : this (reset w).2 = cleared (this w).
Proof.
  unfold reset. unfold bind at 1. unfold update_this at 1.
  unfold bind at 1.
  match goal with
  | |- context [saveTotalDistance ?w'] =>
      destruct (saveTotalDistance_run w') as [E' ->]
  end.
  apply (preserves_bind this); [|intros; apply notifyObservers_this].
  apply (preserves_bind this); [apply preserves_get|].
  intros t. destruct (touchLogKey (storageConfig t)) as [key|];
    [destruct (JS.truthy_string key)|]; auto with frame.
Qed.

(** *** The invariant *)

Lemma fresh_linked t : fresh t -> linked t.
Proof.
  intros (Hlast & Htotal & Hpoints & Hlines). unfold linked.
  rewrite Hlast, Htotal, Hlines. auto.
Qed.

Lemma linked_touched event t : linked t -> linked (touched event t).
Proof.
  unfold linked, touched, sum_distances. intros [Hshape Htotal].
  destruct (lastTouchPosition t); simpl.
  - rewrite !length_app, fold_left_app. simpl. rewrite Htotal.
    split; [lia | reflexivity].
  - destruct Hshape as [-> Hlines]. rewrite Hlines in *. simpl. auto.
Qed.

Lemma linked_cleared t : linked (cleared t).
Proof. unfold linked, cleared. simpl. auto. Qed.

Lemma linked_consistent t : linked t -> consistent t.
Proof.
  unfold linked, consistent. intros [Hshape Htotal]. split; [|assumption].
  destruct (lastTouchPosition t).
  - lia.
  - destruct Hshape as [-> ->]. reflexivity.
Qed.

Lemma linked_call c w : linked (this w) -> linked (this (call c w).2).
Proof.
  intros H. destruct c as [now event| |o|o|]; simpl.
  - rewrite handleTouch_this.
    destruct (saveTouchLog _ w).1; auto using linked_touched.
  - rewrite reset_this. apply linked_cleared.
  - exact H.
  - exact H.
  - rewrite removeStorage_this. exact H.
Qed.

Lemma linked_run cs : forall w, linked (this w) -> linked (this (run cs w)).
Proof.
  induction cs as [|c cs IH]; intros w H; simpl; [assumption|].
  apply IH, linked_call, H.
Qed.

(** C1: from a fresh tracker, after every sequence of calls of the public
    methods ([handleTouch] and [reset] among them), there is one line
    fewer than points (none when there is no point) and the total is the
    sum of the distances of the lines. *)
Theorem invariant_of_calls (cs : list Call) (w : World) :
  fresh (this w) -> consistent (this (run cs w)).
Proof.
  intros H. apply linked_consistent, linked_run, fresh_linked, H.
Qed.


(** *** Running [handleTouch] *)

(** On a readable log [saveTouchLog] returns; otherwise it throws, before
    anything else has happened. *)
Lemma saveTouchLog_run d w :
  log_readable w = true ->
  exists E, saveTouchLog d w = (Return tt, {| this := this w; env := E |}).
Proof.
  destruct w as [t E]. unfold log_readable, saveTouchLog, bind, get_this.
  simpl. destruct (touchLogKey (storageConfig t)) as [key|];
    [|eexists; reflexivity].
  destruct (JS.truthy_string key); [|eexists; reflexivity].
  unfold readable, parse_or_empty. simpl.
  destruct (localStorage E !! key) as [text|]; [|eexists; reflexivity].
  destruct (JS.truthy_string text); [|eexists; reflexivity].
  destruct (JSON_parse text) as [[]|]; try discriminate.
  eexists; reflexivity.
Qed.

Lemma saveTouchLog_throws d w :
  log_readable w = false -> exists e, (saveTouchLog d w).1 = Throw e.
Proof.
  destruct w as [t E]. unfold log_readable, saveTouchLog, bind, get_this.
  simpl. destruct (touchLogKey (storageConfig t)) as [key|];
    [|discriminate].
  destruct (JS.truthy_string key); [|discriminate].
  unfold readable, parse_or_empty. simpl.
  destruct (localStorage E !! key) as [text|]; [|discriminate].
  destruct (JS.truthy_string text); [|discriminate].
  destruct (JSON_parse text) as [[]|]; try discriminate;
    eexists; reflexivity.
Qed.

(** A [handleTouch] that gets past the log is [notifyObservers] run on the
    updated fields; the store accesses before it call no observer. *)
Lemma handleTouch_run now event w :
  log_readable w = true ->
  exists E,
    handleTouch now event w =
    notifyObservers {| this := touched event (this w); env := E |} /\
    notified (trace E) = notified (trace (env w)).
Proof.
  intros Hlog. unfold handleTouch.
  pose proof (saveTouchLog_heard
                (touchData (clientX event) (clientY event) now) w) as Hh.
  destruct (saveTouchLog_run
              (touchData (clientX event) (clientY event) now) w Hlog)
    as [E1 Hrun].
  unfold bind at 1. rewrite Hrun in *. unfold heard in Hh. simpl in Hh.
  unfold bind at 1. unfold bind at 1. unfold get_this at 1. simpl.
  unfold touched.
  destruct (lastTouchPosition (this w)) as [last|].
  - unfold bind at 1. unfold update_this at 1. simpl.
    match goal with
    | |- context [saveTotalDistance ?w'] =>
        pose proof (saveTotalDistance_heard w') as Hs;
        destruct (saveTotalDistance_run w') as [E2 Hrun2]
    end.
    rewrite Hrun2 in *. unfold heard in Hs. simpl in Hs.
    exists E2. split; [reflexivity | congruence].
  - exists E1. split; [reflexivity | assumption].
Qed.

Lemma handleTouch_heard_thrown now event w :
  log_readable w = false ->
  heard (handleTouch now event w).2 = heard w.
Proof.
  intros Hlog. unfold handleTouch.
  pose proof (saveTouchLog_heard
                (touchData (clientX event) (clientY event) now) w) as Hh.
  destruct (saveTouchLog_throws
              (touchData (clientX event) (clientY event) now) w Hlog)
    as [e He].
  unfold bind at 1.
  destruct (saveTouchLog _ w) as [[[]|e'|] w1]; simpl in *;
    try discriminate; assumption.
Qed.

(** *** What [notifyObservers] does *)

Lemma notifyObservers_production w :
  mode (this w) = production -> notifyObservers w = (Return tt, w).
Proof.
  intros Hmode. unfold notifyObservers, bind, get_this. simpl.
  rewrite Hmode. reflexivity.
Qed.

Lemma notifyObserver_run o t E :
  returns (onPointsUpdated o) (points t) &&
  returns (onLinesUpdated o) (lines t) &&
  returns (onTotalDistanceUpdated o) (totalDistance t) = true ->
  notifyObserver o {| this := t; env := E |} =
  (Return tt,
   {| this := t;
      env := {| localStorage := localStorage E;
                trace := trace E ++ callbacks_of t o |} |}).
Proof.
  intros H. apply andb_prop in H as [H H3]. apply andb_prop in H as [H1 H2].
  unfold notifyObserver, callbacks_of, returns in *.
  destruct E as [ls tr].
  destruct (onPointsUpdated o) as [f1|];
    [destruct (f1 (points t)) eqn:E1; try discriminate|];
    (destruct (onLinesUpdated o) as [f2|];
     [destruct (f2 (lines t)) eqn:E2; try discriminate|]);
    (destruct (onTotalDistanceUpdated o) as [f3|];
     [destruct (f3 (totalDistance t)) eqn:E3; try discriminate|]);
    unfold bind, get_this, invoke, outside, emit, bind, ret; simpl;
    repeat (rewrite ?E1, ?E2, ?E3; simpl);
    rewrite <- ?app_assoc, ?app_nil_r; reflexivity.
Qed.





Lemma touched_mode event t : mode (touched event t) = mode t.
Proof. unfold touched. destruct (lastTouchPosition t); reflexivity. Qed.

Lemma touched_observers event t :
  observers (touched event t) = observers t.
Proof. unfold touched. destruct (lastTouchPosition t); reflexivity. Qed.



(** *** The generated keys *)

Lemma String_of_N_read i :
  exists d, JS.String_of_N i = NilEmpty.string_of_uint d /\
            d <> Decimal.Nil /\ N.of_uint d = i.
Proof.
  assert (Hnil : N.to_uint i <> Decimal.Nil).
  { destruct i as [|p]; [discriminate|].
    apply DecimalPos.Unsigned.to_uint_nonnil. }
  exists (N.to_uint i). split; [|split].
  - unfold JS.String_of_N, NilZero.string_of_uint.
    destruct (N.to_uint i); [congruence | reflexivity ..].
  - exact Hnil.
  - apply DecimalN.Unsigned.of_to.
Qed.

Lemma padStart_two s :
  s <> "" -> JS.padStart 2 "0" s = s \/ JS.padStart 2 "0" s = String "0" s.
Proof.
  intros Hs. destruct s as [|c [|c' s]]; [congruence | right | left];
    reflexivity.
Qed.

Lemma number_of_padded i :
  number_of (JS.padStart 2 "0" (JS.String_of_N i)) = Some i.
Proof.
  destruct (String_of_N_read i) as (d & Hd & Hnil & Hi).
  assert (Hne : JS.String_of_N i <> "").
  { rewrite Hd. destruct d; try discriminate. congruence. }
  unfold number_of.
  destruct (padStart_two _ Hne) as [-> | ->]; rewrite Hd.
  - rewrite NilEmpty.usu. simpl. congruence.
  - simpl. rewrite NilEmpty.usu. simpl. congruence.
Qed.

Lemma defaultStorageKey_inj i j :
  defaultStorageKey i = defaultStorageKey j -> i = j.
Proof.
  unfold defaultStorageKey. intros H. apply String.app_inj in H.
  pose proof (number_of_padded i) as Hi. rewrite H in Hi.
  rewrite number_of_padded in Hi. congruence.
Qed.

Lemma defaultStorageKey_truthy i :
  JS.truthy_string (defaultStorageKey i) = true.
Proof. reflexivity. Qed.

Lemma suffixed_truthy s t :
  JS.truthy_string s = true -> JS.truthy_string (s +:+ t) = true.
Proof. destruct s; [discriminate | reflexivity]. Qed.

Lemma or_string_truthy a b :
  JS.truthy_string b = true -> JS.truthy_string (JS.or_string a b) = true.
Proof.
  intros Hb. unfold JS.or_string. destruct a as [s|]; [|assumption].
  destruct (JS.truthy_string s) eqn:Hs; assumption.
Qed.

Lemma length_append s t :
  String.length (s +:+ t) = String.length s + String.length t.
Proof. induction s as [|c s IH]; simpl; [reflexivity | rewrite IH; reflexivity]. Qed.

Lemma append_inj_l s1 s2 t : s1 +:+ t = s2 +:+ t -> s1 = s2.
Proof.
  revert s2. induction s1 as [|c s1 IH]; intros [|c' s2] H; simpl in H.
  - reflexivity.
  - apply (f_equal String.length) in H.
    rewrite !length_append in H. simpl in H. lia.
  - apply (f_equal String.length) in H.
    rewrite !length_append in H. simpl in H. lia.
  - injection H as -> H. f_equal. apply IH, H.
Qed.

(** *** The probing loop *)

(** One turn of the loop. *)
Lemma generate_from_step fuel index E :
  generateDefaultStorageKey_from (S fuel) index E =
  let E1 := {| localStorage := localStorage E;
               trace := trace E ++ [GetItem (defaultStorageKey index)] |} in
  if JS.truthy (localStorage E !! defaultStorageKey index)
  then generateDefaultStorageKey_from fuel (increment index) E1
  else (Return (defaultStorageKey index), E1).
Proof.
  destruct E as [store tr]. simpl. unfold bind, getItem, bind, emit. simpl.
  destruct (JS.truthy (store !! defaultStorageKey index)); reflexivity.
Qed.

Lemma reads_S index count :
  reads index (S count) =
  GetItem (defaultStorageKey index) :: reads (index + 1) count.
Proof.
  unfold reads. rewrite <- cons_seq, fmap_cons, N.add_0_r. f_equal.
  rewrite <- (fmap_S_seq 0), <- list_fmap_compose.
  apply list_fmap_ext. intros _ k _. simpl. f_equal. f_equal. lia.
Qed.

Lemma generate_from_finds count :
  forall fuel index E,
    count < fuel ->
    (index + N.of_nat count <= 2 ^ 53)%N ->
    (forall k, k < count ->
       JS.truthy (localStorage E !! defaultStorageKey (index + N.of_nat k))
       = true) ->
    JS.truthy (localStorage E !! defaultStorageKey (index + N.of_nat count))
    = false ->
    generateDefaultStorageKey_from fuel index E =
    (Return (defaultStorageKey (index + N.of_nat count)),
     {| localStorage := localStorage E;
        trace := trace E ++ reads index (S count) |}).
Proof.
  induction count as [|count IH];
    intros fuel index E Hfuel Hbound Htaken Hfree;
    (destruct fuel as [|fuel]; [lia|]);
    rewrite generate_from_step; cbv zeta; rewrite reads_S.
  - rewrite N.add_0_r in *. rewrite Hfree. reflexivity.
  - pose proof (Htaken 0 ltac:(lia)) as H0.
    rewrite N.add_0_r in H0. rewrite H0.
    assert (Hinc : increment index = (index + 1)%N).
    { unfold increment.
      destruct (N.ltb_spec index (2 ^ 53)); [reflexivity|lia]. }
    rewrite Hinc.
    replace (index + N.of_nat (S count))%N
      with (index + 1 + N.of_nat count)%N in * by lia.
    rewrite IH; cbn [localStorage trace].
    + rewrite <- app_assoc. reflexivity.
    + lia.
    + lia.
    + intros k Hk. specialize (Htaken (S k) ltac:(lia)).
      replace (index + 1 + N.of_nat k)%N
        with (index + N.of_nat (S k))%N by lia.
      exact Htaken.
    + exact Hfree.
Qed.

(** Searching the first [n] indices either finds them all taken or finds
    the first free one. *)
Lemma search (store : gmap string string) n :
  (forall k, k < n ->
     JS.truthy (store !! defaultStorageKey (1 + N.of_nat k)) = true) \/
  (exists count, count < n /\
     (forall k, k < count ->
        JS.truthy (store !! defaultStorageKey (1 + N.of_nat k)) = true) /\
     JS.truthy (store !! defaultStorageKey (1 + N.of_nat count)) = false).
Proof.
  induction n as [|n [IH|(count & Hc & Htaken & Hfree)]].
  - left. intros k Hk. lia.
  - destruct (JS.truthy (store !! defaultStorageKey (1 + N.of_nat n)))
      eqn:Hn.
    + left. intros k Hk. destruct (decide (k = n)) as [->|];
        [assumption | apply IH; lia].
    + right. exists n. auto.
  - right. exists count. auto.
Qed.

(** Pigeonhole: the keys of the indices that are taken are different
    entries of the store, each with a value. *)
Lemma taken_bounded (store : gmap string string) n :
  (forall k, k < n ->
     JS.truthy (store !! defaultStorageKey (1 + N.of_nat k)) = true) ->
  n <= size (live store).
Proof.
  intros Htaken.
  set (keys := (fun k => defaultStorageKey (1 + N.of_nat k)) <$> seq 0 n).
  assert (Hnodup : NoDup keys).
  { apply NoDup_fmap_2; [|apply NoDup_seq].
    intros a b Hab. apply defaultStorageKey_inj in Hab. lia. }
  assert (Hsub : list_to_set keys ⊆ dom (live store)).
  { intros key Hkey. apply elem_of_list_to_set in Hkey.
    apply list_elem_of_fmap in Hkey as (k & -> & Hk).
    apply elem_of_seq in Hk. specialize (Htaken k ltac:(lia)).
    apply elem_of_dom. unfold JS.truthy in Htaken.
    destruct (store !! defaultStorageKey (1 + N.of_nat k)) as [v|] eqn:Hv;
      [|discriminate].
    exists v. apply map_lookup_filter_Some. auto. }
  apply subseteq_size in Hsub.
  rewrite size_list_to_set, size_dom in Hsub by assumption.
  unfold keys in Hsub. rewrite length_fmap, length_seq in Hsub. exact Hsub.
Qed.

Lemma probes_seq count :
  reads 1 (S count) = probes (1 + N.of_nat count).
Proof.
  unfold probes, reads.
  replace (N.to_nat (1 + N.of_nat count)) with (S count) by lia.
  rewrite <- (fmap_S_seq 0), <- list_fmap_compose.
  apply list_fmap_ext. intros _ k _. simpl. f_equal. f_equal. lia.
Qed.

(** With enough fuel the loop returns the key of the first unused index,
    having read the keys before it in order and changed nothing. *)
Lemma generateDefaultStorageKey_run E :
  (N.of_nat (size (live (localStorage E))) < 2 ^ 53)%N ->
  exists i,
    first_unused (localStorage E) i /\
    generateDefaultStorageKey (enough (localStorage E)) E =
    (Return (defaultStorageKey i),
     {| localStorage := localStorage E; trace := trace E ++ probes i |}).
Proof.
  intros Hbound. unfold enough.
  destruct (search (localStorage E) (S (size (live (localStorage E)))))
    as [Hall | (count & Hc & Htaken & Hfree)].
  - apply taken_bounded in Hall. lia.
  - exists (1 + N.of_nat count)%N. split.
    + split; [lia|]. split; [|assumption].
      intros j Hj. specialize (Htaken (N.to_nat j - 1) ltac:(lia)).
      replace (1 + N.of_nat (N.to_nat j - 1))%N with j in Htaken by lia.
      exact Htaken.
    + unfold generateDefaultStorageKey.
      rewrite (generate_from_finds count); try assumption; try lia.
      rewrite probes_seq. reflexivity.
Qed.

(** The constructor, run. *)
Lemma constructor_run config E :
  (N.of_nat (size (live (localStorage E))) < 2 ^ 53)%N ->
  exists i,
    first_unused (localStorage E) i /\
    constructor (enough (localStorage E)) config E =
    (Return (constructed config (localStorage E) i),
     {| localStorage := localStorage E;
        trace := trace E ++ probes i ++
                 [GetItem (JS.or_string (explicit_storageKey config)
                                        (defaultStorageKey i))] |}).
Proof.
  intros Hbound.
  destruct (generateDefaultStorageKey_run E Hbound) as (i & Hi & Hrun).
  exists i. split; [assumption|].
  unfold constructor, bind. rewrite Hrun.
  unfold loadTotalDistance, bind, get_this. simpl.
  fold (explicit_storageKey config). fold (explicit_touchLogKey config).
  rewrite or_string_truthy by apply defaultStorageKey_truthy.
  unfold outside, getItem, bind, emit. simpl. unfold constructed.
  rewrite <- app_assoc.
  destruct (localStorage E !! _) as [saved|]; [|reflexivity].
  destruct (JS.truthy_string saved); reflexivity.
Qed.

(** *** Keys *)

Lemma first_unused_second (store : gmap string string) i :
  first_unused store i ->
  JS.truthy (store !! "totalDistance-01") = true ->
  JS.truthy (store !! "totalDistance-02") = false ->
  i = 2%N.
Proof.
  intros (Hpos & Htaken & Hfree) H1 H2.
  destruct (decide (i = 1%N)) as [->|Hne1].
  { change (defaultStorageKey 1) with "totalDistance-01" in Hfree.
    congruence. }
  destruct (decide (i = 2%N)) as [->|Hne2]; [reflexivity|].
  specialize (Htaken 2%N ltac:(lia)).
  change (defaultStorageKey 2) with "totalDistance-02" in Htaken.
  congruence.
Qed.

(** C7, amended: a tracker constructed without a storage key of its own
    reads the keys totalDistance-01, totalDistance-02, ... in order and
    takes the first one that holds no value or the empty string; when
    totalDistance-01 holds a value and totalDistance-02 does not, it takes
    totalDistance-02.  The key it takes never holds a non-empty value. *)
Theorem default_key_first_unused config E :
  JS.truthy (explicit_storageKey config) = false ->
  (N.of_nat (size (live (localStorage E))) < 2 ^ 53)%N ->
  exists i t E',
    constructor (enough (localStorage E)) config E = (Return t, E') /\
    storageKey (storageConfig t) = Some (defaultStorageKey i) /\
    first_unused (localStorage E) i /\
    trace E' = trace E ++ probes i ++ [GetItem (defaultStorageKey i)] /\
    localStorage E' = localStorage E /\
    (JS.truthy (localStorage E !! "totalDistance-01") = true ->
     JS.truthy (localStorage E !! "totalDistance-02") = false ->
     storageKey (storageConfig t) = Some "totalDistance-02").
Proof.
  intros Hnone Hbound.
  destruct (constructor_run config E Hbound) as (i & Hfirst & Hrun).
  assert (Hkey : JS.or_string (explicit_storageKey config)
                              (defaultStorageKey i) = defaultStorageKey i).
  { unfold JS.or_string, JS.truthy in *.
    destruct (explicit_storageKey config) as [s|]; [|reflexivity].
    rewrite Hnone. reflexivity. }
  rewrite Hkey in Hrun.
  eexists i, _, _. split; [exact Hrun|]. simpl.
  fold (explicit_storageKey config). rewrite Hkey.
  repeat split; try apply Hfirst.
  intros H1 H2.
  rewrite (first_unused_second _ _ Hfirst H1 H2). reflexivity.
Qed.

(** C9: every construction reads the store for a default key first,
    whatever keys the configuration gives; and when the configuration
    gives a storage key but no log key, the log key is the default key
    with "-touch-log" appended, which is not the given key so extended
    unless the two keys are the same. *)
Theorem log_key_from_default config E :
  (N.of_nat (size (live (localStorage E))) < 2 ^ 53)%N ->
  exists i t E',
    constructor (enough (localStorage E)) config E = (Return t, E') /\
    first_unused (localStorage E) i /\
    (exists rest,
       trace E' = trace E ++ GetItem "totalDistance-01" :: rest) /\
    trace E' =
      trace E ++ probes i ++
      [GetItem (JS.or_string (explicit_storageKey config)
                             (defaultStorageKey i))] /\
    forall key,
      explicit_storageKey config = Some key ->
      JS.truthy_string key = true ->
      JS.truthy (explicit_touchLogKey config) = false ->
      storageKey (storageConfig t) = Some key /\
      touchLogKey (storageConfig t) =
        Some (defaultStorageKey i +:+ "-touch-log") /\
      (key <> defaultStorageKey i ->
       touchLogKey (storageConfig t) <> Some (key +:+ "-touch-log")).
Proof.
  intros Hbound.
  destruct (constructor_run config E Hbound) as (i & Hfirst & Hrun).
  eexists i, _, _. split; [exact Hrun|]. split; [exact Hfirst|].
  cbn [trace]. split; [|split; [reflexivity|]].
  - destruct Hfirst as (Hpos & _). unfold probes.
    destruct (N.to_nat i) as [|n] eqn:Hn; [lia|].
    rewrite <- cons_seq, fmap_cons. eexists. reflexivity.
  - intros key Hkey Htruthy Hlog. unfold constructed. cbn [storageConfig
      storageKey touchLogKey]. rewrite Hkey.
    assert (Hdefault :
              JS.or_string (explicit_touchLogKey config)
                           (defaultStorageKey i +:+ "-touch-log")
              = defaultStorageKey i +:+ "-touch-log").
    { unfold JS.or_string, JS.truthy in *.
      destruct (explicit_touchLogKey config) as [s|]; [|reflexivity].
      rewrite Hlog. reflexivity. }
    rewrite Hdefault. unfold JS.or_string. rewrite Htruthy.
    repeat split. intros Hne [= Heq]. apply Hne. symmetry.
    apply (append_inj_l _ _ _ Heq).
Qed.

(** C10: on a store with fewer than 2^53 entries that hold a value, the
    probing loop returns after at most one try more than there are such
    entries, and a key whose value is the empty string ends it like a
    missing one. *)
Theorem probing_terminates E :
  (N.of_nat (size (live (localStorage E))) < 2 ^ 53)%N ->
  (exists i E',
     generateDefaultStorageKey (enough (localStorage E)) E =
     (Return (defaultStorageKey i), E') /\
     first_unused (localStorage E) i) /\
  (forall fuel index,
     localStorage E !! defaultStorageKey index = Some "" ->
     (generateDefaultStorageKey_from (S fuel) index E).1 =
     Return (defaultStorageKey index)).
Proof.
  intros Hbound. split.
  - destruct (generateDefaultStorageKey_run E Hbound) as (i & Hfirst & Hrun).
    eauto.
  - intros fuel index Hempty. rewrite generate_from_step. cbv zeta.
    rewrite Hempty. reflexivity.
Qed.

(** *** Reachable states *)

Lemma generate_from_key fuel :
  forall index E d E',
    generateDefaultStorageKey_from fuel index E = (Return d, E') ->
    exists i, d = defaultStorageKey i.
Proof.
  induction fuel as [|fuel IH]; intros index E d E' H.
  - discriminate.
  - rewrite generate_from_step in H. cbv zeta in H.
    destruct (JS.truthy (localStorage E !! defaultStorageKey index)).
    + eapply IH, H.
    + injection H as <- _. eauto.
Qed.

Lemma constructor_keyed fuel config E t E' :
  constructor fuel config E = (Return t, E') -> keyed t.
Proof.
  unfold constructor, bind. intros H.
  destruct (generateDefaultStorageKey fuel E) as [[d| |] E1] eqn:Hgen;
    try discriminate.
  apply generate_from_key in Hgen as [i ->].
  match type of H with
  | context [loadTotalDistance ?w0] =>
      pose proof (loadTotalDistance_config w0) as Hcfg;
      destruct (loadTotalDistance w0) as [[[]|e|] w1]
  end; try discriminate.
  injection H as <- _. simpl in Hcfg.
  eexists _, _. split; [rewrite Hcfg; reflexivity|].
  split; apply or_string_truthy; [|apply suffixed_truthy];
    apply defaultStorageKey_truthy.
Qed.

Lemma touched_config event t :
  storageConfig (touched event t) = storageConfig t.
Proof. unfold touched. destruct (lastTouchPosition t); reflexivity. Qed.

Lemma call_config c w :
  storageConfig (this (call c w).2) = storageConfig (this w).
Proof.
  destruct c as [now event| |o|o|]; simpl.
  - rewrite handleTouch_this.
    destruct (saveTouchLog _ w).1; auto using touched_config.
  - rewrite reset_this. reflexivity.
  - reflexivity.
  - reflexivity.
  - rewrite removeStorage_this. reflexivity.
Qed.

Lemma reachable_keyed w : reachable w -> keyed (this w).
Proof.
  induction 1 as [fuel config E t E' Hnew | c w _ IH | w E _ IH].
  - eapply constructor_keyed, Hnew.
  - destruct IH as (key & lkey & Hcfg & Hkeys).
    exists key, lkey. rewrite call_config. auto.
  - exact IH.
Qed.

(** *** Reading the store *)

(** What [getTouchLog] returns is decided by the log key and the store. *)
Lemma getTouchLog_outcome w :
  (getTouchLog w).1 =
  match touchLogKey (storageConfig (this w)) with
  | Some key =>
      if JS.truthy_string key
      then match store w !! key with
           | Some text =>
               if JS.truthy_string text
               then match JSON_parse text with
                    | Some value => Return value
                    | None => Throw SyntaxError
                    end
               else Return (JS.JArray [])
           | None => Return (JS.JArray [])
           end
      else Return (JS.JArray [])
  | None => Return (JS.JArray [])
  end.
Proof.
  destruct w as [t E]. unfold getTouchLog, bind, get_this, store. simpl.
  destruct (touchLogKey (storageConfig t)) as [key|]; [|reflexivity].
  destruct (JS.truthy_string key); [|reflexivity].
  unfold parse_or_empty. simpl.
  destruct (localStorage E !! key) as [text|]; [|reflexivity].
  destruct (JS.truthy_string text); [|reflexivity].
  destruct (JSON_parse text); reflexivity.
Qed.

(** [loadTotalDistance] returns, with the total read or left alone. *)
Lemma loadTotalDistance_run w :
  exists E,
    loadTotalDistance w =
    (Return tt,
     {| this :=
          match storageKey (storageConfig (this w)) with
          | Some key =>
              if JS.truthy_string key
              then match store w !! key with
                   | Some saved =>
                       if JS.truthy_string saved
                       then set_totalDistance (parseFloat saved) (this w)
                       else this w
                   | None => this w
                   end
              else this w
          | None => this w
          end;
        env := E |}).
Proof.
  destruct w as [t E]. unfold loadTotalDistance, bind, get_this, store.
  simpl. destruct (storageKey (storageConfig t)) as [key|];
    [|eexists; reflexivity].
  destruct (JS.truthy_string key); [|eexists; reflexivity].
  simpl. destruct (localStorage E !! key) as [saved|];
    [|eexists; reflexivity].
  destruct (JS.truthy_string saved); eexists; reflexivity.
Qed.


(** C2, amended: [loadTotalDistance] never throws.  A stored total that
    is missing or empty leaves the total as it is (0 in a new object); any
    other text, numeric or not, is handed to [parseFloat] and the result
    (NaN when it is no number) becomes the total.  A stored log that is
    missing or empty makes [getTouchLog] return the empty array; any other
    text is handed to [JSON.parse], whose value is returned and whose
    [SyntaxError] on malformed text is thrown to the caller. *)
Theorem storage_reads w :
  (loadTotalDistance w).1 = Return tt /\
  (forall key,
     storageKey (storageConfig (this w)) = Some key ->
     JS.truthy_string key = true ->
     (JS.truthy (localStorage (env w) !! key) = false ->
      this (loadTotalDistance w).2 = this w) /\
     (forall saved,
        localStorage (env w) !! key = Some saved ->
        JS.truthy_string saved = true ->
        totalDistance (this (loadTotalDistance w).2) = parseFloat saved)) /\
  (forall key,
     touchLogKey (storageConfig (this w)) = Some key ->
     JS.truthy_string key = true ->
     (JS.truthy (localStorage (env w) !! key) = false ->
      (getTouchLog w).1 = Return (JS.JArray [])) /\
     (forall text,
        localStorage (env w) !! key = Some text ->
        JS.truthy_string text = true ->
        (getTouchLog w).1 =
        match JSON_parse text with
        | Some value => Return value
        | None => Throw SyntaxError
        end)).
Proof.
  destruct (loadTotalDistance_run w) as [E Hrun]. rewrite Hrun.
  split; [reflexivity|]. split.
  - intros key Hkey Htruthy. cbn [snd this]. unfold store.
    rewrite Hkey, Htruthy. split.
    + intros Hnone. unfold JS.truthy in Hnone.
      destruct (localStorage (env w) !! key) as [saved|]; [|reflexivity].
      rewrite Hnone. reflexivity.
    + intros saved -> ->. reflexivity.
  - intros key Hkey Htruthy. rewrite getTouchLog_outcome. unfold store.
    rewrite Hkey, Htruthy. split.
    + intros Hnone. unfold JS.truthy in Hnone.
      destruct (localStorage (env w) !! key) as [text|]; [|reflexivity].
      rewrite Hnone. reflexivity.
    + intros text -> ->. reflexivity.
Qed.

(** *** A stroke, and a restart *)

Lemma reachable_run cs : forall w, reachable w -> reachable (run cs w).
Proof.
  induction cs as [|c cs IH]; intros w H; simpl; [assumption|].
  apply IH, reachable_call, H.
Qed.

(** A tracker that restores nothing starts fresh; one constructed without
    a storage key of its own never restores anything. *)
Lemma constructed_fresh config (store : gmap string string) i :
  JS.truthy (store !! JS.or_string (explicit_storageKey config)
                                   (defaultStorageKey i)) = false ->
  fresh (constructed config store i).
Proof.
  intros Hnone. unfold fresh, constructed. cbn. unfold JS.truthy in Hnone.
  destruct (store !! _) as [saved|]; [rewrite Hnone|]; auto.
Qed.

Lemma constructed_default_fresh config (store : gmap string string) i :
  JS.truthy (explicit_storageKey config) = false ->
  first_unused store i ->
  fresh (constructed config store i).
Proof.
  intros Hnone (_ & _ & Hfree). apply constructed_fresh.
  unfold JS.or_string, JS.truthy in *.
  destruct (explicit_storageKey config) as [s|]; [rewrite Hnone|];
    exact Hfree.
Qed.

(** C4, amended: on a fresh tracker with dpi 96, on an engine whose
    [Math.pow] squares 100 exactly, and with a stored log that can be
    read before each touch, a touch at (0,0) and then one at (100,100)
    leave one line, and a total of sqrt(100^2+100^2) * 25.4 / 96 in
    binary64 arithmetic, which is 37.42 mm to two decimals (37.4177...),
    not 37.48. *)
Theorem diagonal_stroke now1 now2 w :
  fresh (this w) ->
  dpi (this w) = 96%float ->
  Math_pow 100 2 = 10000%float ->
  log_readable w = true ->
  log_readable (handleTouch now1 Example.down w).2 = true ->
  let w' := run [HandleTouch now1 Example.down;
                 HandleTouch now2 Example.move] w in
  let d := (PrimFloat.sqrt (100 * 100 + 100 * 100) * 25.4 / 96)%float in
  length (lines (this w')) = 1 /\
  (getLines w').1 =
    Return [{| x1 := 0; y1 := 0; x2 := 100; y2 := 100; distance := d |}] /\
  (getTotalDistance w').1 = Return d /\
  approximately d 37.42 0.005 = true.
Proof.
  intros (Hlast & Htotal & Hpoints & Hlines) Hdpi Hpow Hlog1 Hlog2.
  cbv zeta. unfold run, call.
  assert (H1 : this (handleTouch now1 Example.down w).2 =
               touched Example.down (this w)).
  { rewrite handleTouch_this.
    destruct (saveTouchLog_run
                (touchData (clientX Example.down) (clientY Example.down)
                           now1) w Hlog1) as [E ->]. reflexivity. }
  assert (H2 : this (handleTouch now2 Example.move
                       (handleTouch now1 Example.down w).2).2 =
               touched Example.move (touched Example.down (this w))).
  { rewrite handleTouch_this.
    destruct (saveTouchLog_run
                (touchData (clientX Example.move) (clientY Example.move)
                           now2) _ Hlog2) as [E ->].
    cbn [fst]. rewrite H1. reflexivity. }
  unfold getLines, getTotalDistance, bind, get_this, ret. cbn [fst snd].
  rewrite H2. unfold touched. rewrite Hlast. cbn.
  rewrite Hlines, Htotal, Hdpi. unfold calculateDistance.
  change (100 - 0)%float with 100%float. rewrite Hpow.
  repeat split.
Qed.


(** *** Further properties of the class *)

(** X1: a tracker constructed without a storage key of its own starts
    fresh, whatever the store holds: the key it takes has nothing to
    restore. *)
Theorem new_tracker_fresh config E :
  JS.truthy (explicit_storageKey config) = false ->
  (N.of_nat (size (live (localStorage E))) < 2 ^ 53)%N ->
  exists t E',
    constructor (enough (localStorage E)) config E = (Return t, E') /\
    fresh t.
Proof.
  intros Hnone Hbound.
  destruct (constructor_run config E Hbound) as (i & Hfirst & Hrun).
  eexists _, _. split; [exact Hrun|].
  apply constructed_default_fresh; assumption.
Qed.

Lemma callbacks_of_addressed t o obs :
  List.filter (fun e => negb (addressed o e)) (callbacks_of t obs) =
  if Nat.eqb (oid obs) (oid o) then [] else callbacks_of t obs.
Proof.
  unfold callbacks_of.
  destruct (onPointsUpdated obs), (onLinesUpdated obs),
    (onTotalDistanceUpdated obs); simpl;
    destruct (Nat.eqb (oid obs) (oid o)); reflexivity.
Qed.

(** X2: [removeObserver] takes the callbacks of that observer, and only
    those, out of what the observers are told: the others are told the
    same things in the same order. *)
Theorem removeObserver_silences o w :
  let w' := (removeObserver o w).2 in
  (removeObserver o w).1 = Return tt /\
  notifications (this w') =
  List.filter (fun e => negb (addressed o e)) (notifications (this w)).
Proof.
  cbv zeta. split; [reflexivity|].
  unfold removeObserver, update_this, notifications. cbn.
  change (callbacks_of _) with (callbacks_of (this w)).
  induction (observers (this w)) as [|obs l IH]; [reflexivity|].
  cbn. rewrite List.filter_app, callbacks_of_addressed, <- IH.
  destruct (Nat.eqb (oid obs) (oid o)); reflexivity.
Qed.

(** X3: in every reachable state [removeStorage] returns, removes both
    entries from the store and leaves the fields of the object alone. *)
Theorem removeStorage_forgets w :
  reachable w ->
  (removeStorage w).1 = Return tt /\
  this (removeStorage w).2 = this w /\
  localStorage (env (removeStorage w).2) =
  delete (logKey (this w)) (delete (totalKey (this w)) (localStorage (env w))).
Proof.
  intros Hreach. apply reachable_keyed in Hreach
    as (key & lkey & Hcfg & Hkey & Hlkey).
  unfold totalKey, logKey. rewrite Hcfg. destruct w as [t [ls tr]].
  cbn in Hcfg |- *.
  unfold removeStorage, bind, get_this, outside, removeItem, bind, emit.
  repeat (cbn; rewrite ?Hcfg, ?Hkey, ?Hlkey).
  repeat split.
Qed.

(** *** The shape of the recorded data *)

Lemma fields_after_call c w : this (call c w).2 = fields_after c w.
Proof.
  destruct c as [now event| |o|o|]; simpl.
  - rewrite handleTouch_this. destruct (log_readable w) eqn:Hlog.
    + destruct (saveTouchLog_run
                  (touchData (clientX event) (clientY event) now) w Hlog)
        as [E ->]. reflexivity.
    + destruct (saveTouchLog_throws
                  (touchData (clientX event) (clientY event) now) w Hlog)
        as [e ->]. reflexivity.
  - apply reset_this.
  - reflexivity.
  - reflexivity.
  - apply removeStorage_this.
Qed.

Lemma loadTotalDistance_fields w :
  let t' := this (loadTotalDistance w).2 in
  mode t' = mode (this w) /\
  lastTouchPosition t' = lastTouchPosition (this w) /\
  dpi t' = dpi (this w) /\ points t' = points (this w) /\
  lines t' = lines (this w) /\ observers t' = observers (this w).
Proof.
  destruct (loadTotalDistance_run w) as [E ->]. cbn.
  destruct (storageKey (storageConfig (this w))) as [key|];
    [|repeat split].
  destruct (JS.truthy_string key); [|repeat split].
  destruct (store w !! key) as [saved|]; [|repeat split].
  destruct (JS.truthy_string saved); repeat split.
Qed.

Lemma constructor_fields fuel config E t E' :
  constructor fuel config E = (Return t, E') ->
  lastTouchPosition t = None /\ points t = [] /\ lines t = [] /\
  observers t = [] /\
  mode t = default production (Config.mode config) /\
  dpi t = JS.or_number (Config.dpi config) 96.
Proof.
  unfold constructor, bind. intros H.
  destruct (generateDefaultStorageKey fuel E) as [[d| |] E1];
    try discriminate.
  match type of H with
  | context [loadTotalDistance ?w0] =>
      pose proof (loadTotalDistance_fields w0) as Hfields;
      destruct (loadTotalDistance w0) as [[[]|e|] w1]
  end; try discriminate.
  injection H as <- _. cbn in Hfields.
  destruct Hfields as (Hmode & Hlast & Hdpi & Hpoints & Hlines & Hobs).
  auto 10.
Qed.

Lemma segments_snoc t ps p q :
  last ps = Some p ->
  segments t (ps ++ [q]) = segments t ps ++ [segment t p q].
Proof.
  induction ps as [|a [|b ps] IH]; intros Hlast.
  - discriminate.
  - injection Hlast as ->. reflexivity.
  - change (segments t ((a :: b :: ps) ++ [q]))
      with (segment t a b :: segments t ((b :: ps) ++ [q])).
    rewrite IH by exact Hlast. reflexivity.
Qed.

Lemma segments_dpi t t' ps : dpi t = dpi t' -> segments t ps = segments t' ps.
Proof.
  intros Hdpi. induction ps as [|a [|b ps] IH]; try reflexivity.
  change (segment t a b :: segments t (b :: ps) =
          segment t' a b :: segments t' (b :: ps)).
  rewrite IH. unfold segment, convertToMM. rewrite Hdpi. reflexivity.
Qed.

Lemma traced_touched event t : traced t -> traced (touched event t).
Proof.
  unfold traced, touched. intros [Hlast Hlines].
  destruct (lastTouchPosition t) as [p|] eqn:Hp; cbn.
  - rewrite last_snoc. split; [reflexivity|].
    rewrite (segments_snoc _ _ p) by (symmetry; exact Hlast).
    rewrite Hlines. f_equal. apply segments_dpi. reflexivity.
  - rewrite last_snoc. split; [reflexivity|].
    destruct (points t) as [|a ps] eqn:Hps.
    + rewrite Hlines. reflexivity.
    + exfalso. symmetry in Hlast. apply last_None in Hlast. discriminate.
Qed.

Lemma traced_same t t' :
  lastTouchPosition t' = lastTouchPosition t -> points t' = points t ->
  lines t' = lines t -> dpi t' = dpi t -> traced t -> traced t'.
Proof.
  unfold traced. intros -> -> -> Hdpi [Hlast Hlines].
  split; [exact Hlast|]. rewrite Hlines. apply segments_dpi. congruence.
Qed.

Lemma traced_call c w : traced (this w) -> traced (this (call c w).2).
Proof.
  intros H. rewrite fields_after_call.
  destruct c as [now event| |o|o|]; simpl.
  - destruct (log_readable w); [apply traced_touched|]; exact H.
  - split; reflexivity.
  - revert H. apply traced_same; reflexivity.
  - revert H. apply traced_same; reflexivity.
  - exact H.
Qed.

(** X4: in every reachable state, restored total or not, the lines are
    the segments between consecutive points, in order, each with the
    distance [convertToMM (calculateDistance ...)] of its end points, and
    the last position is the last point recorded. *)
Theorem lines_are_segments w :
  reachable w ->
  lines (this w) = segments (this w) (points (this w)) /\
  lastTouchPosition (this w) = last (points (this w)) /\
  Z.of_nat (length (lines (this w))) =
    Z.max (Z.of_nat (length (points (this w))) - 1) 0.
Proof.
  intros Hreach.
  assert (Htraced : traced (this w)).
  { induction Hreach as [fuel config E t E' Hnew | c w _ IH | w E _ IH].
    - apply constructor_fields in Hnew as (Hlast & Hpoints & Hlines & _).
      unfold traced. cbn. rewrite Hlast, Hpoints, Hlines. split; reflexivity.
    - apply traced_call, IH.
    - exact IH. }
  destruct Htraced as [Hlast Hlines]. split; [exact Hlines|].
  split; [exact Hlast|]. rewrite Hlines.
  clear. generalize (this w) as t. intros t.
  induction (points t) as [|a [|b ps] IH]; try reflexivity.
  change (segments t (a :: b :: ps))
    with (segment t a b :: segments t (b :: ps)).
  cbn [length] in *. lia.
Qed.

(** X5: no public method changes the mode, the dpi or the two storage
    keys: they stay as the constructor set them, through every sequence of
    calls, also calls that throw. *)
Theorem configuration_fixed cs w :
  mode (this (run cs w)) = mode (this w) /\
  dpi (this (run cs w)) = dpi (this w) /\
  storageConfig (this (run cs w)) = storageConfig (this w).
Proof.
  revert w. induction cs as [|c cs IH]; intros w; [repeat split|].
  cbn [run]. destruct (IH (call c w).2) as (-> & -> & ->).
  rewrite fields_after_call.
  destruct c as [now event| |o|o|]; cbn; try (repeat split; fail).
  destruct (log_readable w); [|repeat split].
  unfold touched. destruct (lastTouchPosition (this w)); repeat split.
Qed.

Lemma call_dpi c w : dpi (this (call c w).2) = dpi (this w).
Proof.
  rewrite fields_after_call.
  destruct c as [now event| |o|o|]; cbn; try reflexivity.
  destruct (log_readable w); [|reflexivity].
  unfold touched. destruct (lastTouchPosition (this w)); reflexivity.
Qed.

(** X6: the dpi of a tracker is never 0, -0 or NaN, in any reachable
    state: a configured dpi that is falsy is replaced by 96, so
    [convertToMM] never divides by zero. *)
Theorem dpi_never_falsy w :
  reachable w -> JS.truthy_number (dpi (this w)) = true.
Proof.
  induction 1 as [fuel config E t E' Hnew | c w _ IH | w E _ IH].
  - apply constructor_fields in Hnew as (_ & _ & _ & _ & _ & Hdpi).
    cbn. rewrite Hdpi. unfold JS.or_number.
    destruct (Config.dpi config) as [v|]; [|reflexivity].
    destruct (JS.truthy_number v) eqn:Hv; [exact Hv | reflexivity].
  - rewrite call_dpi. exact IH.
  - exact IH.
Qed.

(** *** What one [handleTouch] does to the store *)

Lemma saveTouchLog_appends entry t store0 tr lkey elements :
  touchLogKey (storageConfig t) = Some lkey ->
  JS.truthy_string lkey = true ->
  stored_log (store0 !! lkey) = Some elements ->
  saveTouchLog entry
    {| this := t; env := {| localStorage := store0; trace := tr |} |} =
  (Return tt,
   {| this := t;
      env :=
        {| localStorage :=
             <[lkey := JSON_stringify (JS.JArray (elements ++ [entry]))]>
               store0;
           trace :=
             tr ++
             [GetItem lkey;
              SetItem lkey
                (JSON_stringify (JS.JArray (elements ++ [entry])))] |} |}).
Proof.
  intros Hcfg Hlkey Hlog.
  unfold saveTouchLog, bind, get_this, outside, getItem, setItem, bind, emit,
    parse_or_empty, push.
  cbn. rewrite Hcfg, Hlkey. cbn. unfold stored_log in Hlog.
  destruct (store0 !! lkey) as [text|].
  - destruct (JS.truthy_string text).
    + destruct (JSON_parse text) as [[]|]; try discriminate.
      injection Hlog as ->. cbn. rewrite <- app_assoc. reflexivity.
    + injection Hlog as <-. cbn. rewrite <- app_assoc. reflexivity.
  - injection Hlog as <-. cbn. rewrite <- app_assoc. reflexivity.
Qed.

Lemma saveTouchLog_refuses entry t store0 tr lkey :
  touchLogKey (storageConfig t) = Some lkey ->
  JS.truthy_string lkey = true ->
  stored_log (store0 !! lkey) = None ->
  exists text,
    store0 !! lkey = Some text /\
    saveTouchLog entry
      {| this := t; env := {| localStorage := store0; trace := tr |} |} =
    (Throw match JSON_parse text with
           | Some _ => TypeError
           | None => SyntaxError
           end,
     {| this := t;
        env := {| localStorage := store0;
                  trace := tr ++ [GetItem lkey] |} |}).
Proof.
  intros Hcfg Hlkey Hlog.
  unfold saveTouchLog, bind, get_this, outside, getItem, setItem, bind, emit,
    parse_or_empty, push.
  cbn. rewrite Hcfg, Hlkey. cbn. unfold stored_log in Hlog.
  destruct (store0 !! lkey) as [text|]; [|discriminate].
  exists text. split; [reflexivity|].
  destruct (JS.truthy_string text); [|discriminate].
  destruct (JSON_parse text) as [[]|]; try discriminate; reflexivity.
Qed.

Lemma saveTotalDistance_writes t store0 tr key :
  storageKey (storageConfig t) = Some key ->
  JS.truthy_string key = true ->
  saveTotalDistance
    {| this := t; env := {| localStorage := store0; trace := tr |} |} =
  (Return tt,
   {| this := t;
      env :=
        {| localStorage :=
             <[key := Number_toString (totalDistance t)]> store0;
           trace :=
             tr ++ [SetItem key (Number_toString (totalDistance t))] |} |}).
Proof.
  intros Hcfg Hkey.
  unfold saveTotalDistance, bind, get_this, outside, setItem, bind, emit.
  cbn. rewrite Hcfg, Hkey. reflexivity.
Qed.

(** The whole of a [handleTouch] on a log that is an array. *)
Lemma handleTouch_writes now event w key lkey elements :
  storageConfig (this w) =
    {| storageKey := Some key; touchLogKey := Some lkey |} ->
  JS.truthy_string key = true ->
  JS.truthy_string lkey = true ->
  stored_log (localStorage (env w) !! lkey) = Some elements ->
  let text :=
    JSON_stringify
      (JS.JArray
         (elements ++ [touchData (clientX event) (clientY event) now])) in
  let total := Number_toString (totalDistance (touched event (this w))) in
  handleTouch now event w =
  notifyObservers
    {| this := touched event (this w);
       env :=
         match lastTouchPosition (this w) with
         | Some _ =>
             {| localStorage :=
                  <[key := total]> (<[lkey := text]> (localStorage (env w)));
                trace :=
                  trace (env w) ++
                  [GetItem lkey; SetItem lkey text; SetItem key total] |}
         | None =>
             {| localStorage := <[lkey := text]> (localStorage (env w));
                trace :=
                  trace (env w) ++ [GetItem lkey; SetItem lkey text] |}
         end |}.
Proof.
  intros Hcfg Hkey Hlkey Hlog. cbv zeta. destruct w as [t [store0 tr]].
  cbn in Hcfg, Hlog |- *.
  unfold handleTouch. unfold bind at 1.
  rewrite (saveTouchLog_appends _ t store0 tr lkey elements);
    [| rewrite Hcfg; reflexivity | exact Hlkey | exact Hlog].
  unfold bind at 1. unfold bind at 1. unfold get_this at 1. simpl.
  unfold touched.
  destruct (lastTouchPosition t) as [last|].
  - unfold bind at 1. unfold update_this at 1. simpl.
    match goal with
    | |- context [saveTotalDistance
                    {| this := ?t';
                       env := {| localStorage := ?s; trace := ?r |} |}] =>
        rewrite (saveTotalDistance_writes t' s r key)
    end; [| simpl; rewrite Hcfg; reflexivity | exact Hkey].
    simpl. rewrite <- app_assoc. reflexivity.
  - reflexivity.
Qed.

Lemma keyed_log_readable w key lkey :
  storageConfig (this w) =
    {| storageKey := Some key; touchLogKey := Some lkey |} ->
  JS.truthy_string lkey = true ->
  log_readable w = match stored_log (localStorage (env w) !! lkey) with
                   | Some _ => true
                   | None => false
                   end.
Proof.
  intros Hcfg Hlkey. unfold log_readable, readable, stored_log.
  rewrite Hcfg. cbn. rewrite Hlkey.
  destruct (localStorage (env w) !! lkey) as [text|]; [|reflexivity].
  destruct (JS.truthy_string text); [|reflexivity].
  destruct (JSON_parse text) as [[]|]; reflexivity.
Qed.

(** X7: in a reachable state whose stored log is an array (none and empty
    count as the empty one), [handleTouch] reads the log, writes it back
    with the new entry appended, then, if there was a previous position,
    writes the text of the new total under the storage key, and only then
    notifies the observers, on the updated fields. *)
Theorem handleTouch_effects now event w elements :
  reachable w ->
  stored_log (localStorage (env w) !! logKey (this w)) = Some elements ->
  let text :=
    JSON_stringify
      (JS.JArray
         (elements ++ [touchData (clientX event) (clientY event) now])) in
  let total := Number_toString (totalDistance (touched event (this w))) in
  handleTouch now event w =
  notifyObservers
    {| this := touched event (this w);
       env :=
         match lastTouchPosition (this w) with
         | Some _ =>
             {| localStorage :=
                  <[totalKey (this w) := total]>
                    (<[logKey (this w) := text]> (localStorage (env w)));
                trace :=
                  trace (env w) ++
                  [GetItem (logKey (this w)); SetItem (logKey (this w)) text;
                   SetItem (totalKey (this w)) total] |}
         | None =>
             {| localStorage :=
                  <[logKey (this w) := text]> (localStorage (env w));
                trace :=
                  trace (env w) ++
                  [GetItem (logKey (this w));
                   SetItem (logKey (this w)) text] |}
         end |}.
Proof.
  intros Hreach. apply reachable_keyed in Hreach
    as (key & lkey & Hcfg & Hkey & Hlkey).
  unfold totalKey, logKey. rewrite Hcfg. cbn [storageKey touchLogKey default].
  intros Hlog. apply (handleTouch_writes now event w key lkey elements);
    assumption.
Qed.

(** X8: in a reachable state whose stored log is not an array,
    [handleTouch] throws after reading it and before anything else: the
    [SyntaxError] of [JSON.parse] when the text is no JSON, a [TypeError]
    when it is JSON but has no [push].  No point is recorded, nothing is
    written, no observer is called. *)
Theorem handleTouch_fails_whole now event w :
  reachable w ->
  stored_log (localStorage (env w) !! logKey (this w)) = None ->
  exists text,
    localStorage (env w) !! logKey (this w) = Some text /\
    handleTouch now event w =
    (Throw match JSON_parse text with
           | Some _ => TypeError
           | None => SyntaxError
           end,
     {| this := this w;
        env := {| localStorage := localStorage (env w);
                  trace := trace (env w) ++ [GetItem (logKey (this w))] |} |}).
Proof.
  intros Hreach. apply reachable_keyed in Hreach
    as (key & lkey & Hcfg & Hkey & Hlkey).
  unfold logKey. rewrite Hcfg. cbn [touchLogKey default]. intros Hlog.
  destruct w as [t [store0 tr]]. cbn in Hcfg, Hlog |- *.
  destruct (saveTouchLog_refuses
              (touchData (clientX event) (clientY event) now)
              t store0 tr lkey) as (text & Htext & Hrun);
    [rewrite Hcfg; reflexivity | exact Hlkey | exact Hlog |].
  exists text. split; [exact Htext|].
  unfold handleTouch, bind. rewrite Hrun. reflexivity.
Qed.

(** *** An observer that throws *)

Lemma notifyObserver_throws o t E :
  answers t o = false ->
  exists part rest,
    callbacks_of t o = part ++ rest /\ part <> [] /\
    notifyObserver o {| this := t; env := E |} =
    (Throw ObserverError,
     {| this := t;
        env := {| localStorage := localStorage E;
                  trace := trace E ++ part |} |}).
Proof.
  unfold answers, returns, notifyObserver, callbacks_of.
  destruct E as [store0 tr]. intros H.
  destruct (onPointsUpdated o) as [f1|];
    [destruct (f1 (points t)) eqn:E1|];
    (destruct (onLinesUpdated o) as [f2|];
     [destruct (f2 (lines t)) eqn:E2|]);
    (destruct (onTotalDistanceUpdated o) as [f3|];
     [destruct (f3 (totalDistance t)) eqn:E3|]);
    try discriminate H;
    unfold bind, get_this, invoke, outside, emit, bind, ret, throw; simpl;
    repeat (rewrite ?E1, ?E2, ?E3; simpl);
    rewrite <- ?app_assoc; simpl;
    match goal with
    | |- context [{| localStorage := _; trace := tr ++ ?l |}] =>
        exists l; eexists;
        split; [reflexivity | split; [discriminate | reflexivity]]
    end.
Qed.

Lemma forEach_stops t before o after :
  forallb (answers t) before = true ->
  answers t o = false ->
  forall E,
  exists part rest,
    callbacks_of t o = part ++ rest /\ part <> [] /\
    forEach (before ++ o :: after) notifyObserver {| this := t; env := E |} =
    (Throw ObserverError,
     {| this := t;
        env :=
          {| localStorage := localStorage E;
             trace :=
               trace E ++ flat_map (callbacks_of t) before ++ part |} |}).
Proof.
  intros Hbefore Ho. induction before as [|a before IH]; intros E.
  - destruct (notifyObserver_throws o t E Ho) as (part & rest & Hc & Hp & Hrun).
    exists part, rest. split; [exact Hc|]. split; [exact Hp|].
    cbn [app forEach flat_map]. unfold bind. rewrite Hrun. reflexivity.
  - cbn [forallb] in Hbefore. apply andb_prop in Hbefore as [Ha Hbefore].
    cbn [app forEach flat_map]. unfold bind at 1.
    rewrite (notifyObserver_run a t E Ha).
    destruct (IH Hbefore
                {| localStorage := localStorage E;
                   trace := trace E ++ callbacks_of t a |})
      as (part & rest & Hc & Hp & Hrun).
    exists part, rest. split; [exact Hc|]. split; [exact Hp|].
    rewrite Hrun. cbn [localStorage trace]. rewrite <- !app_assoc.
    reflexivity.
Qed.

(** X9: in visualization mode, when the callbacks of the observers
    registered before [o] return and one of [o] throws, [notifyObservers]
    throws that exception: after the callbacks of the earlier observers
    it has invoked a non-empty initial part of the callbacks of [o], and
    it invokes nothing more: neither the rest of them nor any callback
    of a later observer.  Fields and store are untouched. *)
Theorem observer_throw_stops w before o after :
  mode (this w) = visualization ->
  observers (this w) = before ++ o :: after ->
  forallb (answers (this w)) before = true ->
  answers (this w) o = false ->
  exists part rest,
    callbacks_of (this w) o = part ++ rest /\ part <> [] /\
    notifyObservers w =
    (Throw ObserverError,
     {| this := this w;
        env :=
          {| localStorage := localStorage (env w);
             trace :=
               trace (env w) ++
               flat_map (callbacks_of (this w)) before ++ part |} |}).
Proof.
  intros Hmode Hobs Hbefore Ho. destruct w as [t E]. cbn in *.
  unfold notifyObservers, bind, get_this. cbn. rewrite Hmode, Hobs.
  apply forEach_stops; assumption.
Qed.

(** *** The constructor only reads *)

Lemma generate_from_reads fuel :
  forall index E,
    localStorage (generateDefaultStorageKey_from fuel index E).2 =
    localStorage E /\
    exists rs,
      trace (generateDefaultStorageKey_from fuel index E).2 =
      trace E ++ rs /\
      forallb is_read rs = true.
Proof.
  induction fuel as [|fuel IH]; intros index E.
  - cbn. split; [reflexivity|]. exists []. rewrite app_nil_r.
    split; reflexivity.
  - rewrite generate_from_step. cbv zeta.
    destruct (JS.truthy (localStorage E !! defaultStorageKey index)).
    + match goal with
      | |- context [generateDefaultStorageKey_from fuel ?i ?E1] =>
          destruct (IH i E1) as (Hstore & rs & Htrace & Hrs)
      end.
      rewrite Hstore, Htrace. cbn [localStorage trace].
      split; [reflexivity|].
      exists (GetItem (defaultStorageKey index) :: rs).
      rewrite <- app_assoc. split; [reflexivity | exact Hrs].
    + cbn. split; [reflexivity|].
      exists [GetItem (defaultStorageKey index)]. split; reflexivity.
Qed.

Lemma loadTotalDistance_reads w :
  localStorage (env (loadTotalDistance w).2) = localStorage (env w) /\
  exists rs,
    trace (env (loadTotalDistance w).2) = trace (env w) ++ rs /\
    forallb is_read rs = true.
Proof.
  destruct w as [t [store0 tr]].
  unfold loadTotalDistance, bind, get_this, outside, getItem, bind, emit,
    update_this, ret.
  cbn.
  destruct (storageKey (storageConfig t)) as [key|];
    [destruct (JS.truthy_string key);
     [cbn; destruct (store0 !! key) as [saved|];
      [destruct (JS.truthy_string saved)|]|]|];
    cbn; (split; [reflexivity|]);
    first [ exists []; rewrite app_nil_r; split; reflexivity
          | eexists [_]; split; reflexivity ].
Qed.

(** X10: constructing a tracker never writes to the store, whatever the
    configuration, the store and the outcome: it leaves every entry as it
    was, and all it does to the store is read ([getItem]).  In particular
    a new tracker does not reserve the key it has chosen. *)
Theorem constructor_reads_only fuel config E :
  localStorage (constructor fuel config E).2 = localStorage E /\
  exists rs,
    trace (constructor fuel config E).2 = trace E ++ rs /\
    forallb is_read rs = true.
Proof.
  unfold constructor, bind, generateDefaultStorageKey.
  destruct (generate_from_reads fuel 1 E) as (Hstore & rs & Htrace & Hrs).
  destruct (generateDefaultStorageKey_from fuel 1 E) as [[d| |] E1];
    cbn [snd] in *; [| eauto | eauto].
  match goal with
  | |- context [loadTotalDistance ?w0] =>
      destruct (loadTotalDistance_reads w0) as (Hstore2 & rs2 & Htrace2 & Hrs2);
      destruct (loadTotalDistance w0) as [r w1]
  end.
  cbn [snd env] in *. rewrite Hstore2, Htrace2, Hstore, Htrace.
  split; [reflexivity|]. exists (rs ++ rs2). rewrite <- app_assoc.
  split; [reflexivity|]. rewrite forallb_app, Hrs, Hrs2. reflexivity.
Qed.

Lemma first_unused_unique (store0 : gmap string string) i j :
  first_unused store0 i -> first_unused store0 j -> i = j.
Proof.
  intros (Hi & Hbelow_i & Hfree_i) (Hj & Hbelow_j & Hfree_j).
  destruct (N.lt_trichotomy i j) as [Hlt | [Heq | Hgt]]; [|exact Heq|].
  - specialize (Hbelow_j i ltac:(lia)). congruence.
  - specialize (Hbelow_i j ltac:(lia)). congruence.
Qed.

(** X11: two trackers constructed one after the other (nothing written
    in between) with the same [storageConfig] in their configurations,
    none in particular, get the same storage key and the same log key:
    the second probe finds the same first unused index as the first. *)
Theorem default_key_not_reserved config1 config2 E :
  (N.of_nat (size (live (localStorage E))) < 2 ^ 53)%N ->
  Config.storageConfig config1 = Config.storageConfig config2 ->
  exists t1 E1 t2 E2,
    constructor (enough (localStorage E)) config1 E = (Return t1, E1) /\
    constructor (enough (localStorage E1)) config2 E1 = (Return t2, E2) /\
    storageConfig t2 = storageConfig t1.
Proof.
  intros Hbound Hsame.
  destruct (constructor_run config1 E Hbound) as (i & Hi & Hrun1).
  eexists _, _. rewrite Hrun1.
  match goal with
  | |- context [(Return ?t, ?E1) = _] =>
      destruct (constructor_run config2 E1 Hbound) as (j & Hj & Hrun2)
  end.
  cbn [localStorage] in Hj, Hrun2 |- *.
  eexists _, _. split; [reflexivity|]. split; [exact Hrun2|].
  rewrite (first_unused_unique _ i j Hi Hj).
  unfold constructed, explicit_storageKey, explicit_touchLogKey.
  cbn [storageConfig]. rewrite Hsame. reflexivity.
Qed.

(** *** The stored total follows the total *)

Lemma handleTouch_stops now event w lkey :
  touchLogKey (storageConfig (this w)) = Some lkey ->
  JS.truthy_string lkey = true ->
  stored_log (localStorage (env w) !! lkey) = None ->
  this (handleTouch now event w).2 = this w /\
  localStorage (env (handleTouch now event w).2) = localStorage (env w).
Proof.
  intros Hcfg Hlkey Hlog. destruct w as [t [store0 tr]].
  cbn in Hcfg, Hlog |- *.
  destruct (saveTouchLog_refuses
              (touchData (clientX event) (clientY event) now)
              t store0 tr lkey Hcfg Hlkey Hlog) as (text & _ & Hrun).
  unfold handleTouch, bind. rewrite Hrun. split; reflexivity.
Qed.

Lemma synced_call c w :
  keyed (this w) ->
  is_removeStorage c = false ->
  synced w -> synced (call c w).2.
Proof.
  intros (key & lkey & Hcfg & Hkey & Hlkey) Hc [Hnone Hsync].
  unfold synced, totalKey in *. rewrite call_config.
  rewrite Hcfg in *. cbn [storageKey default] in *.
  destruct c as [now event| |o|o|]; cbn [call]; try discriminate Hc.
  - destruct (stored_log (localStorage (env w) !! lkey)) as [elements|]
      eqn:Hlog.
    + rewrite (handleTouch_writes now event w key lkey elements)
        by assumption.
      cbv zeta. rewrite notifyObservers_this.
      match goal with
      | |- context [notifyObservers ?w'] =>
          pose proof (notifyObservers_store w') as Hstore
      end.
      unfold store in Hstore. rewrite Hstore. cbn [this env].
      unfold touched.
      destruct (lastTouchPosition (this w)) as [last|];
        cbn [lastTouchPosition lines totalDistance localStorage].
      * split; [discriminate|]. intros _. apply lookup_insert_eq.
      * split; [discriminate|]. intros Hlines.
        destruct Hlines. apply Hnone. reflexivity.
    + destruct (handleTouch_stops now event w lkey) as [-> ->];
        [rewrite Hcfg; reflexivity | assumption | assumption |].
      split; assumption.
  - rewrite reset_this. cbn. split; [reflexivity|]. intros H. destruct H.
    reflexivity.
  - cbn. split; assumption.
  - cbn. split; assumption.
Qed.

Lemma synced_run cs :
  forall w,
    forallb (fun c => negb (is_removeStorage c)) cs = true ->
    keyed (this w) -> synced w -> synced (run cs w).
Proof.
  induction cs as [|c cs IH]; intros w Hcs Hkeyed Hsynced; [exact Hsynced|].
  cbn [forallb] in Hcs. apply andb_prop in Hcs as [Hc Hcs].
  apply negb_true_iff in Hc. cbn [run]. apply (IH _ Hcs).
  - destruct Hkeyed as (key & lkey & Hcfg & Hkeys).
    exists key, lkey. rewrite call_config. auto.
  - apply synced_call; assumption.
Qed.

Lemma constructor_synced fuel config E t E' :
  constructor fuel config E = (Return t, E') ->
  synced {| this := t; env := E' |}.
Proof.
  intros Hnew. apply constructor_fields in Hnew as (_ & _ & Hlines & _).
  split; cbn; [auto | rewrite Hlines; intros H; destruct H; reflexivity].
Qed.

(** X12: from construction on, as long as [removeStorage] is not called
    and nothing else writes to the store, a tracker that has a line has
    its total in the store: the entry under its storage key is the text
    of [totalDistance], after every call, also one that threw. *)
Theorem stored_total_current fuel config E t E' cs :
  constructor fuel config E = (Return t, E') ->
  forallb (fun c => negb (is_removeStorage c)) cs = true ->
  let w := run cs {| this := t; env := E' |} in
  lines (this w) <> [] ->
  localStorage (env w) !! totalKey (this w) =
  Some (Number_toString (totalDistance (this w))).
Proof.
  intros Hnew Hcs. cbv zeta.
  apply (synced_run cs {| this := t; env := E' |} Hcs).
  - eapply constructor_keyed, Hnew.
  - eapply constructor_synced, Hnew.
Qed.

(** X20: a tracker that has a line has reserved its storage key, when
    the text of a number is never empty: as long as [removeStorage] is
    not called and nothing else writes to the store, a tracker
    constructed afterwards without an explicit storage key gets a
    different one. *)
Theorem saved_key_is_taken fuel config E t E' cs config2 :
  constructor fuel config E = (Return t, E') ->
  forallb (fun c => negb (is_removeStorage c)) cs = true ->
  let w := run cs {| this := t; env := E' |} in
  lines (this w) <> [] ->
  JS.truthy_string (Number_toString (totalDistance (this w))) = true ->
  JS.truthy (explicit_storageKey config2) = false ->
  (N.of_nat (size (live (localStorage (env w)))) < 2 ^ 53)%N ->
  exists t2 E2,
    constructor (enough (localStorage (env w))) config2 (env w) =
    (Return t2, E2) /\
    storageKey (storageConfig t2) <> storageKey (storageConfig (this w)).
Proof.
  intros Hnew Hcs. cbv zeta. intros Hlines Htext Hnone Hbound.
  assert (Hsynced : synced (run cs {| this := t; env := E' |})).
  { apply (synced_run cs {| this := t; env := E' |} Hcs).
    - eapply constructor_keyed, Hnew.
    - eapply constructor_synced, Hnew. }
  destruct Hsynced as [_ Hstored]. specialize (Hstored Hlines).
  destruct (constructor_run config2 _ Hbound) as (i & (_ & _ & Hfree) & Hrun).
  eexists _, _. split; [exact Hrun|].
  unfold constructed. cbn [storageConfig storageKey]. intros Hsame.
  unfold totalKey in Hstored. rewrite <- Hsame in Hstored.
  cbn [default from_option id] in Hstored.
  assert (Hkey : JS.or_string (explicit_storageKey config2)
                              (defaultStorageKey i) = defaultStorageKey i).
  { unfold JS.or_string, JS.truthy in *.
    destruct (explicit_storageKey config2) as [s|]; [rewrite Hnone|];
      reflexivity. }
  rewrite Hkey in Hstored. rewrite Hstored in Hfree. cbn in Hfree.
  congruence.
Qed.

(** *** Recovery and round trips *)

Lemma reset_writes w key lkey :
  storageConfig (this w) =
    {| storageKey := Some key; touchLogKey := Some lkey |} ->
  JS.truthy_string key = true ->
  JS.truthy_string lkey = true ->
  reset w =
  notifyObservers
    {| this := cleared (this w);
       env :=
         {| localStorage :=
              delete lkey
                (<[key := Number_toString 0]> (localStorage (env w)));
            trace :=
              trace (env w) ++
              [SetItem key (Number_toString 0); RemoveItem lkey] |} |}.
Proof.
  intros Hcfg Hkey Hlkey. destruct w as [t [store0 tr]]. cbn in Hcfg |- *.
  unfold reset, bind, update_this, saveTotalDistance, bind, get_this,
    outside, setItem, removeItem, bind, emit.
  repeat (cbn; rewrite ?Hcfg, ?Hkey, ?Hlkey).
  unfold cleared. rewrite ?Hcfg, <- ?app_assoc. reflexivity.
Qed.

(** X13: [reset] repairs a tracker whose stored log has become
    unreadable.  In every reachable state, whatever the store holds, the
    [handleTouch] that follows a [reset] records its point: afterwards
    the tracker has that one point, no line and total 0, and the stored
    log is the array of that one entry. *)
Theorem reset_recovers now event w :
  reachable w ->
  let w' := (handleTouch now event (reset w).2).2 in
  points (this w') = [{| x := clientX event; y := clientY event |}] /\
  lines (this w') = [] /\
  totalDistance (this w') = 0%float /\
  localStorage (env w') !! logKey (this w) =
  Some (JSON_stringify
          (JS.JArray [touchData (clientX event) (clientY event) now])).
Proof.
  intros Hreach. apply reachable_keyed in Hreach
    as (key & lkey & Hcfg & Hkey & Hlkey).
  cbv zeta. unfold logKey. rewrite Hcfg. cbn [touchLogKey default].
  rewrite (reset_writes w key lkey Hcfg Hkey Hlkey).
  match goal with
  | |- context [notifyObservers ?w0] =>
      pose proof (notifyObservers_this w0) as Hthis;
      pose proof (notifyObservers_store w0) as Hstore;
      destruct (notifyObservers w0) as [r w1]
  end.
  unfold store in Hstore. cbn [snd this env localStorage] in Hthis, Hstore.
  cbn [snd]. rewrite (handleTouch_writes now event w1 key lkey []).
  - cbv zeta. rewrite notifyObservers_this.
    match goal with
    | |- context [notifyObservers ?w2] =>
        pose proof (notifyObservers_store w2) as Hstore2
    end.
    unfold store in Hstore2. rewrite Hstore2. cbn [this env].
    rewrite Hthis. unfold touched, cleared.
    cbn [lastTouchPosition points lines totalDistance localStorage].
    repeat split. apply lookup_insert_eq.
  - rewrite Hthis. exact Hcfg.
  - exact Hkey.
  - exact Hlkey.
  - rewrite Hstore, lookup_delete_eq. reflexivity.
Qed.

(** X14: when the storage key and the log key differ, and the engine
    reads the text it prints for the new log back as that log, a
    [handleTouch] on a readable log makes [getTouchLog] return the old
    entries followed by the new one, and leaves the log readable for the
    next call. *)
Theorem log_grows now event w elements :
  reachable w ->
  totalKey (this w) <> logKey (this w) ->
  stored_log (localStorage (env w) !! logKey (this w)) = Some elements ->
  let log := elements ++ [touchData (clientX event) (clientY event) now] in
  stored_log (Some (JSON_stringify (JS.JArray log))) = Some log ->
  let w' := (handleTouch now event w).2 in
  (getTouchLog w').1 = Return (JS.JArray log) /\
  stored_log (localStorage (env w') !! logKey (this w')) = Some log.
Proof.
  intros Hreach. apply reachable_keyed in Hreach
    as (key & lkey & Hcfg & Hkey & Hlkey).
  unfold totalKey, logKey. rewrite Hcfg.
  cbn [storageKey touchLogKey default from_option id].
  intros Hne Hlog. cbv zeta. intros Hread.
  rewrite (handleTouch_writes now event w key lkey elements) by assumption.
  cbv zeta. rewrite getTouchLog_outcome, notifyObservers_this.
  match goal with
  | |- context [notifyObservers ?w0] =>
      pose proof (notifyObservers_store w0) as Hstore
  end.
  unfold store in *. rewrite Hstore. cbn [this env].
  rewrite touched_config, Hcfg. cbn [touchLogKey default from_option id].
  rewrite Hlkey.
  set (text := JSON_stringify _) in *.
  assert (Hitem :
    localStorage
      match lastTouchPosition (this w) with
      | Some _ =>
          {| localStorage :=
               <[key := Number_toString
                          (totalDistance (touched event (this w)))]>
                 (<[lkey := text]> (localStorage (env w)));
             trace :=
               trace (env w) ++
               [GetItem lkey; SetItem lkey text;
                SetItem key
                  (Number_toString
                     (totalDistance (touched event (this w))))] |}
      | None =>
          {| localStorage := <[lkey := text]> (localStorage (env w));
             trace := trace (env w) ++ [GetItem lkey; SetItem lkey text] |}
      end !! lkey = Some text).
  { destruct (lastTouchPosition (this w)); cbn [localStorage].
    - rewrite lookup_insert_ne by exact Hne. apply lookup_insert_eq.
    - apply lookup_insert_eq. }
  rewrite Hitem. split; [|exact Hread].
  unfold stored_log in Hread.
  destruct (JS.truthy_string text).
  - destruct (JSON_parse text) as [[]|]; try discriminate.
    injection Hread as ->. reflexivity.
  - injection Hread as Hread. symmetry in Hread.
    apply app_eq_nil in Hread as [_ Hread]. discriminate.
Qed.

(** X15: registering an observer that is not registered and removing it
    again gives back the state as it was: the other observers keep their
    places, and nothing else is touched. *)
Theorem observer_round_trip o w :
  Forall (fun obs => oid obs <> oid o) (observers (this w)) ->
  (removeObserver o (addObserver o w).2).2 = w.
Proof.
  intros Hnew. destruct w as [[m p d total ps ls obs cfg] E].
  cbn in *. unfold update_this. cbn. do 2 f_equal.
  rewrite List.filter_app. cbn. rewrite Nat.eqb_refl. cbn.
  rewrite app_nil_r. induction Hnew as [|a l Ha _ IH]; [reflexivity|].
  cbn. apply Nat.eqb_neq in Ha. rewrite Ha. cbn. f_equal. exact IH.
Qed.

(** *** Production mode is silent *)

Lemma notified_reads rs : forallb is_read rs = true -> notified rs = [].
Proof.
  induction rs as [|[] rs IH]; cbn; intros H; try discriminate; auto.
Qed.

Lemma call_mode c w : mode (this (call c w).2) = mode (this w).
Proof.
  rewrite fields_after_call.
  destruct c as [now event| |o|o|]; cbn; try reflexivity.
  destruct (log_readable w); [apply touched_mode | reflexivity].
Qed.

Lemma removeStorage_env w key lkey :
  storageConfig (this w) =
    {| storageKey := Some key; touchLogKey := Some lkey |} ->
  JS.truthy_string key = true ->
  JS.truthy_string lkey = true ->
  env (removeStorage w).2 =
  {| localStorage := delete lkey (delete key (localStorage (env w)));
     trace := trace (env w) ++ [RemoveItem key; RemoveItem lkey] |}.
Proof.
  intros Hcfg Hkey Hlkey. destruct w as [t [store0 tr]]. cbn in Hcfg |- *.
  unfold removeStorage, bind, get_this, outside, removeItem, bind, emit.
  repeat (cbn; rewrite ?Hcfg, ?Hkey, ?Hlkey).
  rewrite <- app_assoc. reflexivity.
Qed.

Lemma call_production c w :
  keyed (this w) -> mode (this w) = production ->
  heard (call c w).2 = heard w.
Proof.
  intros (key & lkey & Hcfg & Hkey & Hlkey) Hmode.
  destruct c as [now event| |o|o|]; cbn [call].
  - destruct (log_readable w) eqn:Hlog.
    + destruct (handleTouch_run now event w Hlog) as (E & -> & Hheard).
      rewrite notifyObservers_production
        by (cbn; rewrite touched_mode; exact Hmode).
      exact Hheard.
    + apply handleTouch_heard_thrown, Hlog.
  - rewrite (reset_writes w key lkey Hcfg Hkey Hlkey).
    rewrite notifyObservers_production by exact Hmode.
    unfold heard, notified. cbn. rewrite List.filter_app. cbn.
    apply app_nil_r.
  - reflexivity.
  - reflexivity.
  - unfold heard. rewrite (removeStorage_env w key lkey Hcfg Hkey Hlkey).
    unfold notified. cbn. rewrite List.filter_app. cbn. apply app_nil_r.
Qed.

Lemma constructor_heard fuel config E t E' :
  constructor fuel config E = (Return t, E') ->
  notified (trace E') = notified (trace E).
Proof.
  unfold constructor, bind, generateDefaultStorageKey. intros Hnew.
  destruct (generate_from_reads fuel 1 E) as (_ & rs & Htrace & Hrs).
  destruct (generateDefaultStorageKey_from fuel 1 E) as [[d| |] E1];
    try discriminate.
  cbn [snd] in Htrace.
  match type of Hnew with
  | context [loadTotalDistance ?w0] =>
      destruct (loadTotalDistance_reads w0) as (_ & rs2 & Htrace2 & Hrs2);
      destruct (loadTotalDistance w0) as [r w1]
  end.
  cbn [snd env] in Htrace2. injection Hnew as _ <-.
  rewrite Htrace2, Htrace. unfold notified. rewrite !List.filter_app.
  fold (notified rs) (notified rs2).
  rewrite (notified_reads rs Hrs), (notified_reads rs2 Hrs2), !app_nil_r.
  reflexivity.
Qed.

(** X16: a tracker constructed in production mode, which is the mode of
    a configuration that names none, never invokes a callback of an
    observer: not in its constructor and not in any sequence of calls of
    its methods, whatever observers are registered. *)
Theorem production_silent fuel config E t E' cs :
  constructor fuel config E = (Return t, E') ->
  default production (Config.mode config) = production ->
  notified (trace (env (run cs {| this := t; env := E' |}))) =
  notified (trace E).
Proof.
  intros Hnew Hmode.
  assert (Hstart : heard {| this := t; env := E' |} = notified (trace E)).
  { unfold heard. cbn. apply (constructor_heard _ _ _ _ _ Hnew). }
  pose proof (constructor_keyed _ _ _ _ _ Hnew) as Hkeyed.
  apply constructor_fields in Hnew as (_ & _ & _ & _ & Hm & _).
  rewrite Hmode in Hm. clear Hmode.
  fold (heard (run cs {| this := t; env := E' |})). rewrite <- Hstart.
  change t with (this {| this := t; env := E' |}) in Hkeyed, Hm.
  revert Hkeyed Hm. generalize {| this := t; env := E' |}. clear.
  induction cs as [|c cs IH]; intros w Hkeyed Hmode; [reflexivity|].
  cbn [run]. rewrite IH.
  - apply call_production; assumption.
  - destruct Hkeyed as (key & lkey & Hcfg & Hkeys).
    exists key, lkey. rewrite call_config. auto.
  - rewrite call_mode. exact Hmode.
Qed.

(** X17: after [removeStorage], a new tracker that is given the storage
    key of the old one restores nothing: it starts with total 0, no
    points and no lines. *)
Theorem removed_total_not_restored w config :
  reachable w ->
  explicit_storageKey config = Some (totalKey (this w)) ->
  let E := env (removeStorage w).2 in
  (N.of_nat (size (live (localStorage E))) < 2 ^ 53)%N ->
  exists t E',
    constructor (enough (localStorage E)) config E = (Return t, E') /\
    fresh t.
Proof.
  intros Hreach. apply reachable_keyed in Hreach
    as (key & lkey & Hcfg & Hkey & Hlkey).
  unfold totalKey. rewrite Hcfg. cbn [storageKey default from_option id].
  intros Hgiven. cbv zeta.
  rewrite (removeStorage_env w key lkey Hcfg Hkey Hlkey). intros Hbound.
  destruct (constructor_run config _ Hbound) as (i & _ & Hrun).
  eexists _, _. split; [exact Hrun|].
  apply constructed_fresh. rewrite Hgiven. unfold JS.or_string.
  rewrite Hkey. cbn [localStorage].
  destruct (decide (lkey = key)) as [->|Hne].
  - rewrite lookup_delete_eq. reflexivity.
  - rewrite lookup_delete_ne by exact Hne.
    rewrite lookup_delete_eq. reflexivity.
Qed.

(** *** No distance is negative *)

Lemma binary_round_aux_signed mx ex lx :
  signed (binary_round_aux prec emax false mx ex lx) = false.
Proof.
  unfold binary_round_aux.
  destruct (shr_fexp prec emax mx ex lx) as [mrs' e'].
  destruct (shr_fexp prec emax _ e' loc_Exact) as [mrs'' e''].
  destruct (shr_m mrs''); [reflexivity | | reflexivity].
  destruct (Z.leb e'' (emax - prec)); reflexivity.
Qed.

Lemma SFsqrt_signed s : signed (SFsqrt prec emax s) = false.
Proof.
  destruct s as [[]|[]| |[] m e]; try reflexivity.
  unfold SFsqrt. destruct (SFsqrt_core_binary prec emax (Z.pos m) e)
    as [[mz ez] lz].
  apply binary_round_aux_signed.
Qed.

Lemma SFmul_signed a b :
  signed a = false -> signed b = false ->
  signed (SFmul prec emax a b) = false.
Proof.
  destruct a as [[]|[]| |[] ma ea], b as [[]|[]| |[] mb eb];
    try discriminate; try reflexivity.
  intros _ _. apply binary_round_aux_signed.
Qed.

Lemma SFadd_signed a b :
  signed a = false -> signed b = false ->
  signed (SFadd prec emax a b) = false.
Proof.
  destruct a as [[]|[]| |[] ma ea], b as [[]|[]| |[] mb eb];
    try discriminate; try reflexivity.
  intros _ _. unfold SFadd, cond_Zopp, binary_normalize.
  destruct (shl_align ma ea (Z.min ea eb)) as [ma' ea'].
  destruct (shl_align mb eb (Z.min ea eb)) as [mb' eb'].
  cbn [fst]. change (signed (binary_round prec emax false (ma' + mb')
                              (Z.min ea eb)) = false).
  unfold binary_round.
  match goal with
  | |- context [shl_align ?m ?e ?e'] =>
      destruct (shl_align m e e') as [mz ez]
  end.
  apply binary_round_aux_signed.
Qed.

Lemma negative_signed v : negative v = signed (Prim2SF v).
Proof.
  unfold negative. rewrite ltb_spec.
  change (Prim2SF 0) with (S754_zero false).
  destruct (Prim2SF v) as [[]|[]| |[] m e]; reflexivity.
Qed.

Lemma negative_sqrt v : negative (sqrt v) = false.
Proof. rewrite negative_signed, sqrt_spec. apply SFsqrt_signed. Qed.

Lemma negative_add a b :
  negative a = false -> negative b = false -> negative (a + b) = false.
Proof.
  rewrite !negative_signed, add_spec. apply SFadd_signed.
Qed.

Lemma negative_mul a b :
  negative a = false -> negative b = false -> negative (a * b) = false.
Proof.
  rewrite !negative_signed, mul_spec. apply SFmul_signed.
Qed.

Lemma negative_per_pixel d :
  (0 <? d)%float = true -> negative (25.4 / d) = false.
Proof.
  rewrite negative_signed, ltb_spec, div_spec.
  change (Prim2SF 0) with (S754_zero false).
  assert (H : exists m e, Prim2SF 25.4 = S754_finite false m e)
    by (vm_compute; eauto).
  destruct H as (m & e & ->).
  destruct (Prim2SF d) as [[]|[]| |[] md ed]; try discriminate;
    intros _; try reflexivity.
  unfold SF64div, SFdiv.
  destruct (SFdiv_core_binary prec emax (Z.pos m) e (Z.pos md) ed)
    as [[mz ez] lz].
  apply binary_round_aux_signed.
Qed.

(** X18: [calculateDistance] never returns a number below zero, for any
    coordinates and whatever [Math.pow] returns: the result of
    [Math.sqrt] is NaN or not negative. *)
Theorem calculateDistance_not_negative x1 y1 x2 y2 :
  negative (calculateDistance x1 y1 x2 y2) = false.
Proof.
  unfold calculateDistance. rewrite negative_signed, sqrt_spec.
  apply SFsqrt_signed.
Qed.

Lemma convertToMM_not_negative t d :
  (0 <? dpi t)%float = true -> negative d = false ->
  negative (convertToMM t d) = false.
Proof.
  intros Hdpi Hd. unfold convertToMM. apply negative_mul; [exact Hd|].
  apply negative_per_pixel, Hdpi.
Qed.

Lemma measured_call c w :
  (0 <? dpi (this w))%float = true ->
  measured (this w) -> measured (this (call c w).2).
Proof.
  intros Hdpi [Htotal Hlines]. rewrite fields_after_call.
  destruct c as [now event| |o|o|]; cbn [fields_after].
  - destruct (log_readable w); [|split; assumption].
    unfold touched. destruct (lastTouchPosition (this w)) as [last|];
      [|split; assumption].
    assert (Hd :
      negative (convertToMM (this w)
                  (calculateDistance (x last) (y last) (clientX event)
                                     (clientY event))) = false).
    { apply convertToMM_not_negative; [exact Hdpi|].
      unfold calculateDistance. apply negative_sqrt. }
    split; cbn.
    + apply negative_add; assumption.
    + apply Forall_app. split; [exact Hlines|]. repeat constructor.
      exact Hd.
  - split; cbn; [reflexivity | constructor].
  - split; assumption.
  - split; assumption.
  - split; assumption.
Qed.

(** X19: with a dpi above zero, a tracker that starts with a total that
    is not negative and lines whose distances are not negative (a fresh
    one, in particular) keeps that through every sequence of calls: the
    total and the distance of every line are NaN or not below zero. *)
Theorem total_not_negative cs w :
  (0 <? dpi (this w))%float = true ->
  measured (this w) ->
  measured (this (run cs w)).
Proof.
  revert w. induction cs as [|c cs IH]; intros w Hdpi Hm; [exact Hm|].
  cbn [run]. apply IH.
  - rewrite call_dpi. exact Hdpi.
  - apply measured_call; assumption.
Qed.

End Proofs.

(** * The properties on concrete inputs *)

Lemma constructor_example :
  constructor 1 Example.config Example.empty =
  (Return (this Example.start), env Example.start).
Proof. vm_compute. reflexivity. Qed.

Lemma invariant_of_calls_witness :
  consistent
    (this (run (Example.stroke ++
                [Reset; HandleTouch 1700000000032 Example.move])
               Example.start)).
Proof.
  apply invariant_of_calls. repeat split.
Defined.


(** C7: the claim as stated fails on a store in which totalDistance-01
    exists with the empty string as its value: the constructor takes that
    very key, not totalDistance-02. *)
Lemma default_key_collides :
  let E := {| localStorage := {["totalDistance-01" := ""]}; trace := [] |} in
  exists t E',
    constructor (enough (localStorage E)) Config.empty E = (Return t, E') /\
    storageKey (storageConfig t) = Some "totalDistance-01" /\
    localStorage E !! "totalDistance-01" = Some "" /\
    storageKey (storageConfig t) <> Some "totalDistance-02".
Proof.
  eexists _, _. split; [vm_compute; reflexivity|].
  split; [reflexivity|]. split; [reflexivity|]. discriminate.
Qed.

Lemma default_key_first_unused_witness :
  exists i t E',
    constructor (enough (localStorage Example.used)) Config.empty Example.used
    = (Return t, E') /\
    storageKey (storageConfig t) = Some (defaultStorageKey i) /\
    first_unused (localStorage Example.used) i /\
    trace E' = trace Example.used ++ probes i ++ [GetItem (defaultStorageKey i)] /\
    localStorage E' = localStorage Example.used /\
    (JS.truthy (localStorage Example.used !! "totalDistance-01") = true ->
     JS.truthy (localStorage Example.used !! "totalDistance-02") = false ->
     storageKey (storageConfig t) = Some "totalDistance-02").
Proof.
  apply (default_key_first_unused Config.empty Example.used).
  - reflexivity.
  - vm_compute. reflexivity.
Defined.

Lemma log_key_from_default_witness :
  exists i t E',
    constructor (enough (localStorage Example.used))
      Example.again Example.used
    = (Return t, E') /\
    touchLogKey (storageConfig t) =
      Some (defaultStorageKey i +:+ "-touch-log") /\
    i = 2%N.
Proof.
  destruct (log_key_from_default Example.again Example.used)
    as (i & t & E' & Hrun & Hfirst & _ & _ & Hkeys).
  - vm_compute. reflexivity.
  - exists i, t, E'. split; [exact Hrun|]. split.
    + apply (Hkeys "totalDistance-01"); reflexivity.
    + apply (first_unused_second _ _ Hfirst); reflexivity.
Defined.

Lemma probing_terminates_witness :
  exists i E',
    generateDefaultStorageKey (enough (localStorage Example.used))
                              Example.used =
    (Return (defaultStorageKey i), E') /\
    first_unused (localStorage Example.used) i.
Proof.
  apply (probing_terminates Example.used). vm_compute. reflexivity.
Defined.

Lemma worked_reachable : reachable Example.worked.
Proof.
  apply reachable_run.
  exact (reachable_new 1 Example.config Example.empty _ _
           constructor_example).
Qed.


(** C2: the claim as stated fails on a store whose entries are the text
    "abc": the total of the tracker constructed on it is NaN, not 0, and
    [getTouchLog] throws the [SyntaxError] of [JSON.parse]. *)
Lemma unparsable_surfaces :
  exists t E',
    constructor (enough (localStorage Example.corrupt)) Example.named
                Example.corrupt = (Return t, E') /\
    PrimFloat.is_nan (totalDistance t) = true /\
    totalDistance t <> 0%float /\
    (getTouchLog {| this := t; env := E' |}).1 = Throw SyntaxError.
Proof.
  eexists _, _. split; [vm_compute; reflexivity|].
  split; [reflexivity|]. split; [|reflexivity].
  intros H. apply (f_equal PrimFloat.is_nan) in H. discriminate H.
Qed.

Lemma storage_reads_witness :
  let w := {| this := Example.tracker; env := Example.used |} in
  totalDistance (this (loadTotalDistance w).2) = 37.417733837788141%float /\
  (getTouchLog w).1 = Return (JS.JArray []).
Proof.
  destruct (storage_reads {| this := Example.tracker; env := Example.used |})
    as (_ & Htotal & Hlog).
  cbv zeta. split.
  - rewrite (proj2 (Htotal "totalDistance-01" eq_refl eq_refl)
               "37.41773383778814" eq_refl eq_refl).
    reflexivity.
  - rewrite (proj2 (Hlog "totalDistance-01-touch-log" eq_refl eq_refl)
               "[]" eq_refl eq_refl).
    reflexivity.
Defined.

(** C4: the claim as stated fails on the figure it quotes: the total after
    the stroke is 37.417733837788141, which 37.48 misses by more than the
    0.05 the test suite allows. *)
Lemma stroke_is_not_37_48 :
  let w' := run Example.stroke Example.start in
  (getTotalDistance w').1 = Return 37.417733837788141%float /\
  37.417733837788141%float =
    (PrimFloat.sqrt (100 * 100 + 100 * 100) * 25.4 / 96)%float /\
  approximately 37.417733837788141 37.48 0.05 = false.
Proof. vm_compute. repeat split. Qed.

Lemma diagonal_stroke_witness :
  let w' := run Example.stroke Example.start in
  length (lines (this w')) = 1 /\
  (getTotalDistance w').1 = Return 37.417733837788141%float.
Proof.
  assert (Hfresh : fresh (this Example.start)) by repeat split.
  assert (Hpow : Math_pow 100 2 = 10000%float) by (vm_compute; reflexivity).
  assert (Hlog :
    log_readable (handleTouch 1700000000000 Example.down Example.start).2
    = true) by (vm_compute; reflexivity).
  destruct (diagonal_stroke 1700000000000 1700000000016 Example.start
              Hfresh eq_refl Hpow eq_refl Hlog)
    as (Hlines & _ & Htotal & _).
  cbv zeta. unfold Example.stroke.
  split; [exact Hlines | rewrite Htotal; vm_compute; reflexivity].
Defined.


(** What the observers of the example are told by the second touch. *)
Lemma notifications_example :
  notifications (touched Example.move (this Example.watched)) =
  [Notify 1 (PointsUpdated [{| x := 0; y := 0 |}; {| x := 100; y := 100 |}]);
   Notify 1 (LinesUpdated
               [{| x1 := 0; y1 := 0; x2 := 100; y2 := 100;
                   distance := 37.417733837788141 |}]);
   Notify 1 (TotalDistanceUpdated 37.417733837788141);
   Notify 2 (TotalDistanceUpdated 37.417733837788141)].
Proof. vm_compute. reflexivity. Qed.


Lemma new_tracker_fresh_witness :
  exists t E',
    constructor (enough (localStorage Example.used)) Example.config
                Example.used = (Return t, E') /\
    fresh t.
Proof.
  apply (new_tracker_fresh Example.config Example.used).
  - reflexivity.
  - vm_compute. reflexivity.
Defined.

Lemma removeStorage_forgets_witness :
  this (removeStorage Example.worked).2 = this Example.worked /\
  localStorage (env (removeStorage Example.worked).2) = ∅.
Proof.
  destruct (removeStorage_forgets Example.worked worked_reachable)
    as (_ & Hthis & Hstore).
  split; [exact Hthis|]. rewrite Hstore. vm_compute. reflexivity.
Defined.

Lemma lines_are_segments_witness :
  lines (this Example.worked) =
    [segment (this Example.worked) {| x := 0; y := 0 |}
             {| x := 100; y := 100 |}] /\
  lastTouchPosition (this Example.worked) = Some {| x := 100; y := 100 |}.
Proof.
  destruct (lines_are_segments Example.worked worked_reachable)
    as (Hlines & Hlast & _).
  rewrite Hlines, Hlast. vm_compute. split; reflexivity.
Defined.

Lemma dpi_never_falsy_witness :
  JS.truthy_number (dpi (this Example.worked)) = true.
Proof. exact (dpi_never_falsy Example.worked worked_reachable). Defined.

Lemma watched_reachable : reachable Example.watched.
Proof.
  apply reachable_run.
  exact (reachable_new 1 Example.config Example.empty _ _
           constructor_example).
Qed.

Lemma spoiled_reachable : reachable Example.spoiled.
Proof.
  apply (reachable_outside Example.start).
  exact (reachable_new 1 Example.config Example.empty _ _
           constructor_example).
Qed.

Lemma handleTouch_effects_witness :
  exists E,
    handleTouch 1700000000016 Example.move Example.watched =
    notifyObservers
      {| this := touched Example.move (this Example.watched); env := E |} /\
    localStorage E =
    {["totalDistance-01" := "37.41773383778814";
      "totalDistance-01-touch-log" :=
        ES.JSON_stringify
          (JS.JArray [touchData 0 0 1700000000000;
                      touchData 100 100 1700000000016])]}.
Proof.
  assert (Hlog :
    stored_log (localStorage (env Example.watched)
                !! logKey (this Example.watched))
    = Some [touchData 0 0 1700000000000]) by (vm_compute; reflexivity).
  pose proof (handleTouch_effects 1700000000016 Example.move
                Example.watched _ watched_reachable Hlog) as Hrun.
  cbv zeta in Hrun. eexists. split; [exact Hrun|].
  vm_compute. reflexivity.
Defined.

Lemma handleTouch_fails_whole_witness :
  handleTouch 1700000000000 Example.down Example.spoiled =
  (Throw SyntaxError,
   {| this := Example.tracker;
      env := {| localStorage := {["totalDistance-01-touch-log" := "abc"]};
                trace := [GetItem "totalDistance-01-touch-log"] |} |}).
Proof.
  assert (Hlog :
    stored_log (localStorage (env Example.spoiled)
                !! logKey (this Example.spoiled)) = None)
    by (vm_compute; reflexivity).
  destruct (handleTouch_fails_whole 1700000000000 Example.down
              Example.spoiled spoiled_reachable Hlog)
    as (text & Htext & Hrun).
  rewrite Hrun. vm_compute in Htext. injection Htext as <-.
  vm_compute. reflexivity.
Defined.

Lemma observer_throw_stops_witness :
  exists part rest,
    callbacks_of (this Example.crowded) Example.faulty = part ++ rest /\
    part <> [] /\
    notifyObservers Example.crowded =
    (Throw ObserverError,
     {| this := this Example.crowded;
        env :=
          {| localStorage := localStorage (env Example.crowded);
             trace :=
               trace (env Example.crowded) ++
               flat_map (callbacks_of (this Example.crowded))
                        [Example.watcher] ++ part |} |}).
Proof.
  assert (Hmode : mode (this Example.crowded) = visualization)
    by reflexivity.
  assert (Hobs : observers (this Example.crowded) =
                 [Example.watcher] ++ Example.faulty :: [Example.meter])
    by reflexivity.
  assert (Hbefore : forallb (answers (this Example.crowded))
                            [Example.watcher] = true) by reflexivity.
  assert (Ho : answers (this Example.crowded) Example.faulty = false)
    by reflexivity.
  exact (observer_throw_stops Example.crowded [Example.watcher]
           Example.faulty [Example.meter] Hmode Hobs Hbefore Ho).
Defined.

Lemma default_key_not_reserved_witness :
  exists t1 E1 t2 E2,
    constructor (enough (localStorage Example.used)) Example.config
                Example.used = (Return t1, E1) /\
    constructor (enough (localStorage E1)) Example.config E1 =
    (Return t2, E2) /\
    storageConfig t2 = storageConfig t1.
Proof.
  assert (Hbound :
    (N.of_nat (size (live (localStorage Example.used))) < 2 ^ 53)%N)
    by (vm_compute; reflexivity).
  exact (default_key_not_reserved Example.config Example.config
           Example.used Hbound eq_refl).
Defined.

Lemma stored_total_current_witness :
  localStorage (env (run Example.stroke Example.start))
  !! totalKey (this (run Example.stroke Example.start)) =
  Some (ES.Number_toString
          (totalDistance (this (run Example.stroke Example.start)))).
Proof.
  assert (Hcs : forallb (fun c => negb (is_removeStorage c))
                        Example.stroke = true) by reflexivity.
  assert (Hlines : lines (this (run Example.stroke Example.start)) <> [])
    by (vm_compute; discriminate).
  exact (stored_total_current 1 Example.config Example.empty
           (this Example.start) (env Example.start) Example.stroke
           constructor_example Hcs Hlines).
Defined.

Lemma reset_recovers_witness :
  let w' :=
    (handleTouch 1700000000000 Example.down (reset Example.spoiled).2).2 in
  points (this w') = [{| x := 0; y := 0 |}] /\
  lines (this w') = [] /\
  totalDistance (this w') = 0%float /\
  localStorage (env w') !! logKey (this Example.spoiled) =
  Some (ES.JSON_stringify (JS.JArray [touchData 0 0 1700000000000])).
Proof.
  exact (reset_recovers 1700000000000 Example.down Example.spoiled
           spoiled_reachable).
Defined.

Lemma log_grows_witness :
  let log := [touchData 0 0 1700000000000;
              touchData 100 100 1700000000016] in
  let w' := (handleTouch 1700000000016 Example.move Example.watched).2 in
  (getTouchLog w').1 = Return (JS.JArray log) /\
  stored_log (localStorage (env w') !! logKey (this w')) = Some log.
Proof.
  assert (Hne : totalKey (this Example.watched)
                <> logKey (this Example.watched))
    by (vm_compute; discriminate).
  assert (Hlog :
    stored_log (localStorage (env Example.watched)
                !! logKey (this Example.watched))
    = Some [touchData 0 0 1700000000000]) by (vm_compute; reflexivity).
  assert (Hread :
    stored_log
      (Some (ES.JSON_stringify
               (JS.JArray ([touchData 0 0 1700000000000] ++
                           [touchData (clientX Example.move)
                                      (clientY Example.move)
                                      1700000000016]))))
    = Some ([touchData 0 0 1700000000000] ++
            [touchData (clientX Example.move) (clientY Example.move)
                       1700000000016]))
    by (vm_compute; reflexivity).
  exact (log_grows 1700000000016 Example.move Example.watched
           [touchData 0 0 1700000000000] watched_reachable Hne Hlog Hread).
Defined.

Lemma observer_round_trip_witness :
  (removeObserver Example.meter
     (addObserver Example.meter
        (run [AddObserver Example.watcher] Example.start)).2).2 =
  run [AddObserver Example.watcher] Example.start.
Proof.
  apply observer_round_trip. repeat constructor. cbn. discriminate.
Defined.

Lemma saved_key_is_taken_witness :
  exists t2 E2,
    constructor
      (enough (localStorage (env (run Example.stroke Example.start))))
      Example.plain (env (run Example.stroke Example.start)) =
    (Return t2, E2) /\
    storageKey (storageConfig t2) <>
    storageKey (storageConfig (this (run Example.stroke Example.start))).
Proof.
  assert (Hcs : forallb (fun c => negb (is_removeStorage c))
                        Example.stroke = true) by reflexivity.
  assert (Hlines : lines (this (run Example.stroke Example.start)) <> [])
    by (vm_compute; discriminate).
  assert (Htext :
    JS.truthy_string
      (ES.Number_toString
         (totalDistance (this (run Example.stroke Example.start)))) = true)
    by (vm_compute; reflexivity).
  assert (Hbound :
    (N.of_nat
       (size (live (localStorage (env (run Example.stroke Example.start)))))
     < 2 ^ 53)%N) by (vm_compute; reflexivity).
  exact (saved_key_is_taken 1 Example.config Example.empty
           (this Example.start) (env Example.start) Example.stroke
           Example.plain constructor_example Hcs Hlines Htext eq_refl
           Hbound).
Defined.

Lemma production_silent_witness :
  notified
    (trace
       (env (run ([AddObserver Example.watcher] ++ Example.stroke ++ [Reset])
                 {| this := Example.idle; env := env Example.start |}))) =
  notified (trace Example.empty).
Proof.
  assert (Hnew : constructor 1 Example.plain Example.empty =
                 (Return Example.idle, env Example.start))
    by (vm_compute; reflexivity).
  exact (production_silent 1 Example.plain Example.empty Example.idle
           (env Example.start)
           ([AddObserver Example.watcher] ++ Example.stroke ++ [Reset])
           Hnew eq_refl).
Defined.

Lemma removed_total_not_restored_witness :
  exists t E',
    constructor
      (enough (localStorage (env (removeStorage Example.worked).2)))
      Example.again (env (removeStorage Example.worked).2) =
    (Return t, E') /\
    fresh t.
Proof.
  assert (Hgiven : explicit_storageKey Example.again =
                   Some (totalKey (this Example.worked)))
    by (vm_compute; reflexivity).
  assert (Hbound :
    (N.of_nat
       (size (live (localStorage (env (removeStorage Example.worked).2))))
     < 2 ^ 53)%N) by (vm_compute; reflexivity).
  exact (removed_total_not_restored Example.worked Example.again
           worked_reachable Hgiven Hbound).
Defined.

Lemma total_not_negative_witness :
  measured (this (run Example.stroke Example.start)).
Proof.
  assert (Hdpi : (0 <? dpi (this Example.start))%float = true)
    by reflexivity.
  assert (Hm : measured (this Example.start))
    by (split; [reflexivity | constructor]).
  exact (total_not_negative Example.stroke Example.start Hdpi Hm).
Defined.
